(** * Sargam player: recording, playback and the interaction state machine

    A shallow embedding of [src/main.py].  The classes [SoundManager],
    [RecordingManager], [MusicUI] and [MusicInstrument] become records, their
    methods become functions that pass the object explicitly.

    Conventions of the embedding:
    - a reading of [time.time()] is an integer number of clock ticks ([Z]);
      sums and differences of readings are exact;
    - values that travel through [json.dump] / [json.load] are [pyval]s;
      [current_recording] is such a value, because [load_recording] stores
      whatever the file holds under the key ['notes'];
    - an exception that escapes a method is [None]; the [try]/[except]
      blocks of the source are written out as the [False] results they give;
    - the directory [recordings/] is a finite map that holds, under the
      key [n], what the file [n.json] holds;
    - a playback thread is a state that is stepped between the key events;
      it reads [self.current_recording] when it enters its loop, and the
      list it then iterates over is the one [add_note] appends to, until
      the attribute is bound to another list. *)

From stdpp Require Import gmap strings list fin_maps pretty.
From Stdlib Require Import ZArith Lia Sorting.Sorted.

Set Default Proof Using "Type".
Set Warnings "-register-all".

(** ** Python values and JSON documents *)

Inductive pyval : Type :=
| PyNone
| PyBool (b : bool)
| PyNum (x : Z)
| PyStr (s : string)
| PyList (l : list pyval)
| PyTuple (l : list pyval)
| PyDict (d : list (string * pyval)).

Inductive json : Type :=
| JNull
| JBool (b : bool)
| JNum (x : Z)
| JStr (s : string)
| JArr (l : list json)
| JObj (kvs : list (string * json)).

(** [bool(v)]: the truth value Python gives to [v] in [if v] / [not v]. *)
Definition py_truthy (v : pyval) : bool :=
  match v with
  | PyNone => false
  | PyBool b => b
  | PyNum x => negb (x =? 0)%Z
  | PyStr s => negb (String.eqb s "")
  | PyList l | PyTuple l => negb (bool_decide (l = []))
  | PyDict d => negb (bool_decide (d = []))
  end.

(** [len(v)]; [None] is the [TypeError] of an unsized value. *)
Definition py_len (v : pyval) : option nat :=
  match v with
  | PyStr s => Some (String.length s)
  | PyList l | PyTuple l => Some (length l)
  | PyDict d => Some (length d)
  | _ => None
  end.

(** [iter(v)] run to the end: the items a [for] loop over [v] visits. *)
Definition py_iter (v : pyval) : option (list pyval) :=
  match v with
  | PyStr s => Some ((fun c => PyStr (String c EmptyString)) <$> String.list_ascii_of_string s)
  | PyList l | PyTuple l => Some l
  | PyDict d => Some ((fun kv => PyStr kv.1) <$> d)
  | _ => None
  end.

(** [a, b = v]: unpacking into exactly two targets. *)
Definition py_unpack2 (v : pyval) : option (pyval * pyval) :=
  match py_iter v with
  | Some [a; b] => Some (a, b)
  | _ => None
  end.

(** The number a value stands for in [float + v]; [bool] is a subclass of
    [int] in Python. *)
Definition py_num (v : pyval) : option Z :=
  match v with
  | PyNum x => Some x
  | PyBool b => Some (if b then 1 else 0)%Z
  | _ => None
  end.

(** [hash(v)] is defined: lists and dicts are unhashable. *)
Fixpoint py_hashable (v : pyval) : bool :=
  match v with
  | PyList _ | PyDict _ => false
  | PyTuple l => forallb py_hashable l
  | _ => true
  end.

(** [d[k] = v] on a dict kept in insertion order. *)
Fixpoint dict_set {A} (k : string) (v : A) (d : list (string * A)) : list (string * A) :=
  match d with
  | [] => [(k, v)]
  | (k', v') :: d' => if String.eqb k k' then (k', v) :: d' else (k', v') :: dict_set k v d'
  end.

(** [d.get(k, default)]. *)
Fixpoint dict_get {A} (k : string) (default : A) (d : list (string * A)) : A :=
  match d with
  | [] => default
  | (k', v') :: d' => if String.eqb k k' then v' else dict_get k default d'
  end.

(** The encoder of [json.dump]: tuples and lists both become arrays. *)
Fixpoint to_json (v : pyval) : json :=
  match v with
  | PyNone => JNull
  | PyBool b => JBool b
  | PyNum x => JNum x
  | PyStr s => JStr s
  | PyList l | PyTuple l => JArr (to_json <$> l)
  | PyDict d => JObj ((fun kv => match kv with (k, x) => (k, to_json x) end) <$> d)
  end.

(** The decoder of [json.load]: arrays become lists, and a key that occurs
    twice in an object keeps its last value. *)
Fixpoint of_json (j : json) : pyval :=
  match j with
  | JNull => PyNone
  | JBool b => PyBool b
  | JNum x => PyNum x
  | JStr s => PyStr s
  | JArr l => PyList (of_json <$> l)
  | JObj kvs =>
      PyDict (foldl (fun d kv => dict_set kv.1 kv.2 d) []
                ((fun kv => match kv with (k, x) => (k, of_json x) end) <$> kvs))
  end.

(** What a file of [recordings/] holds: a JSON document, or text that
    [json.load] rejects. *)
Inductive file : Type :=
| Doc (j : json)
| Malformed.

(** What the surroundings give to one step of the program. *)
Record env : Type := {
  now : Z;                 (* time.time() *)
  strftime_now : string;   (* datetime.now().strftime('%Y%m%d_%H%M%S') *)
  isoformat_now : string;  (* datetime.now().isoformat() *)
  io_ok : bool             (* open() succeeds *)
}.

(** ** RecordingManager *)

Record RecordingManager : Type := {
  current_recording : pyval;
  recording_start_time : option Z;
  is_recording : bool
}.

Module RM.

(** [__init__] *)
Definition init : RecordingManager :=
  {| current_recording := PyList [];
     recording_start_time := None;
     is_recording := false |}.

Definition start_recording (t : Z) (rm : RecordingManager) : RecordingManager :=
  {| current_recording := PyList [];
     recording_start_time := Some t;
     is_recording := true |}.

(** The flag is lowered before [len] is taken, so the new state exists even
    when [len] raises. *)
Definition stop_recording (rm : RecordingManager) : RecordingManager * option nat :=
  ({| current_recording := current_recording rm;
      recording_start_time := recording_start_time rm;
      is_recording := false |},
   py_len (current_recording rm)).

(** [if self.recording_start_time]: [None] and [0.0] are both false. *)
Definition start_time_truthy (o : option Z) : bool :=
  match o with
  | Some s => negb (s =? 0)%Z
  | None => false
  end.

(** [None] is the [AttributeError] of [append] on a value that is no list. *)
Definition add_note (note : string) (t : Z) (rm : RecordingManager) : option RecordingManager :=
  if is_recording rm && start_time_truthy (recording_start_time rm) then
    match recording_start_time rm, current_recording rm with
    | Some s, PyList l =>
        let timestamp := (t - s)%Z in
        Some {| current_recording := PyList (l ++ [PyTuple [PyStr note; PyNum timestamp]]);
                recording_start_time := recording_start_time rm;
                is_recording := is_recording rm |}
    | _, _ => None
    end
  else Some rm.

Definition save_recording (filename : string) (e : env) (rm : RecordingManager)
    (disk : gmap string file) : bool * gmap string file :=
  if negb (py_truthy (current_recording rm)) then (false, disk)
  else if io_ok e then
    let recording_data :=
      PyDict [("timestamp", PyStr (isoformat_now e)); ("notes", current_recording rm)] in
    (true, <[filename := Doc (to_json recording_data)]> disk)
  else (false, disk).

Definition load_recording (filename : string) (e : env) (rm : RecordingManager)
    (disk : gmap string file) : bool * RecordingManager :=
  match disk !! filename with
  | None => (false, rm)
  | Some f =>
      if io_ok e then
        match f with
        | Doc j =>
            match of_json j with
            | PyDict d =>
                (true, {| current_recording := dict_get "notes" (PyList []) d;
                          recording_start_time := recording_start_time rm;
                          is_recording := is_recording rm |})
            | _ => (false, rm)
            end
        | Malformed => (false, rm)
        end
      else (false, rm)
  end.

(** [Path(n + ".json").stem]: the name without its last suffix; a name
    that begins with its only dot has no suffix, so the stem of [".json"] is
    [".json"] itself. *)
Definition stem_of_json (n : string) : string :=
  if String.eqb n "" then ".json" else n.

(** [[f.stem for f in self.recordings_dir.glob("*.json")]].  The map
    holds the files of [recordings/] whose names end in [".json"], the
    file [n.json] under the key [n]; the order of the list is that of the
    directory listing, which the program does not choose. *)
Definition get_available_recordings (disk : gmap string file) : list string :=
  stem_of_json <$> (map_to_list disk).*1.

End RM.

(** ** SoundManager *)

Record SoundManager : Type := {
  sounds : gset string   (* the notes whose .wav file was loaded *)
}.

(** What the program does to the outside, in the order it does it. *)
Inductive effect : Type :=
| Sleep (d : Z)                            (* time.sleep(d) *)
| Trigger (note : pyval) (audible : bool)  (* play_note(note); a sound starts iff [audible] *)
| Callback (note : pyval).                 (* callback(note) *)

Definition in_sounds (sm : SoundManager) (note : pyval) : bool :=
  match note with
  | PyStr s => bool_decide (s ∈ sounds sm)
  | _ => false
  end.

(** [note in self.sounds] hashes [note]; [None] is its [TypeError]. *)
Definition play_note (sm : SoundManager) (note : pyval) : option (list effect) :=
  if py_hashable note then Some [Trigger note (in_sounds sm note)] else None.

(** ** The playback thread of [RecordingManager.playback_recording] *)

Section PlaybackThread.
Context {St : Type}.
Variable sm : SoundManager.
Variable callback : option (pyval -> St -> St).

(** One turn of the loop up to the test [target_time > current_time]:
    the note, and the time to sleep when the target lies ahead. *)
Definition loop_head (start_time current_time : Z) (item : pyval) : option (pyval * option Z) :=
  match py_unpack2 item with
  | Some (note, timestamp) =>
      match py_num timestamp with
      | Some ts =>
          let target_time := (start_time + ts)%Z in
          Some (note, if (target_time >? current_time)%Z
                      then Some (target_time - current_time)%Z else None)
      | None => None
      end
  | None => None
  end.

(** The rest of the turn: [play_note], then the callback if there is one. *)
Definition loop_tail (note : pyval) (s : St) : option (list effect * St) :=
  match play_note sm note with
  | Some effs =>
      match callback with
      | Some cb => Some (effs ++ [Callback note], cb note s)
      | None => Some (effs, s)
      end
  | None => None
  end.

Definition sleep_effect (wait : option Z) : list effect :=
  match wait with
  | Some d => [Sleep d]
  | None => []
  end.

(** The [for] loop, run in one go.  [clock k] is the [k]-th reading of
    [time.time()] the thread takes; the boolean tells whether the loop
    came to its end ([false]: an exception ended the thread). *)
Fixpoint playback_loop (start_time : Z) (clock : nat -> Z) (k : nat)
    (items : list pyval) (s : St) : list effect * St * bool :=
  match items with
  | [] => ([], s, true)
  | item :: rest =>
      match loop_head start_time (clock k) item with
      | None => ([], s, false)
      | Some (note, wait) =>
          match loop_tail note s with
          | None => (sleep_effect wait, s, false)
          | Some (effs, s') =>
              let '(effs', s'', ok) := playback_loop start_time clock (S k) rest s' in
              (sleep_effect wait ++ effs ++ effs', s'', ok)
          end
      end
  end.

Definition playback_thread (clock : nat -> Z) (recording : pyval) (s : St)
    : list effect * St * bool :=
  let start_time := clock 0%nat in
  match py_iter recording with
  | Some items => playback_loop start_time clock 1 items s
  | None => ([], s, false)
  end.

(** The same thread seen from outside, one step at a time, so that key
    events can be handled between its steps (in particular while it is
    inside [time.sleep]).

    The thread is given no buffer when it is started: it evaluates
    [self.current_recording] when it enters its [for] loop, and from then on
    it holds an iterator over that object.  [items] is what the iterator
    has not visited yet; [live] tells that the object is still the one
    [self.current_recording] refers to, so that what [add_note] appends to
    it will be visited too. *)
Inductive playback : Type :=
| PbStart
| PbLoop (start_time : Z) (live : bool) (items : list pyval)
| PbSleep (start_time : Z) (note : pyval) (live : bool) (items : list pyval)
| PbDone
| PbFailed.

Definition playback_trigger (start_time : Z) (note : pyval) (live : bool)
    (rest : list pyval) (s : St) : playback * list effect * St :=
  match loop_tail note s with
  | Some (effs, s') => (PbLoop start_time live rest, effs, s')
  | None => (PbFailed, [], s)
  end.

(** One step at clock reading [t]; [recording] is what
    [self.current_recording] is when the step is taken (only the entry
    into the loop looks at it). *)
Definition playback_step (t : Z) (recording : pyval) (p : playback) (s : St)
    : playback * list effect * St :=
  match p with
  | PbStart =>
      match py_iter recording with
      | Some items => (PbLoop t true items, [], s)
      | None => (PbFailed, [], s)
      end
  | PbLoop start_time live [] => (PbDone, [], s)
  | PbLoop start_time live (item :: rest) =>
      match loop_head start_time t item with
      | Some (note, Some d) => (PbSleep start_time note live rest, [Sleep d], s)
      | Some (note, None) => playback_trigger start_time note live rest s
      | None => (PbFailed, [], s)
      end
  | PbSleep start_time note live rest => playback_trigger start_time note live rest s
  | PbDone => (PbDone, [], s)
  | PbFailed => (PbFailed, [], s)
  end.
End PlaybackThread.

(** What an append adds to a list: the items of [new] past those of [old]. *)
Definition appended (old new : pyval) : list pyval :=
  match old, new with
  | PyList l, PyList l' => drop (length l) l'
  | _, _ => []
  end.

(** An iterator over the buffer sees what is appended to the buffer. *)
Definition see_append (more : list pyval) (p : playback) : playback :=
  match p with
  | PbLoop start_time true items => PbLoop start_time true (items ++ more)
  | PbSleep start_time note true items => PbSleep start_time note true (items ++ more)
  | _ => p
  end.

(** When [self.current_recording] is bound to a new object, the iterators
    keep the old one, which nothing appends to any more. *)
Definition detach (p : playback) : playback :=
  match p with
  | PbLoop start_time _ items => PbLoop start_time false items
  | PbSleep start_time note _ items => PbSleep start_time note false items
  | _ => p
  end.

Arguments playback : clear implicits.

(** ** MusicUI *)

Inductive mode : Type :=
| M_menu               (* "menu" *)
| M_live               (* "live" *)
| M_record             (* "record" *)
| M_playback           (* "playback" *)
| M_select_recording.  (* "select_recording" *)

Record MusicUI : Type := {
  current_mode : mode;
  last_played_note : string;
  status_message : string;
  available_recordings : option (list string)   (* None: the attribute is not set yet *)
}.

Module UI.

Definition key_to_note : list (string * (string * string)) :=
  [("a", ("sa", "Sa")); ("s", ("re", "Re")); ("d", ("ga", "Ga")); ("f", ("ma", "Ma"));
   ("g", ("pa", "Pa")); ("h", ("dha", "Dha")); ("j", ("ni", "Ni")); ("k", ("sa_high", "Sa'"))].

Definition init : MusicUI :=
  {| current_mode := M_menu;
     last_played_note := "";
     status_message := "Welcome to the Indian Classical Music Instrument!";
     available_recordings := None |}.

Definition set_available_recordings (recordings : list string) (ui : MusicUI) : MusicUI :=
  {| current_mode := current_mode ui;
     last_played_note := last_played_note ui;
     status_message := status_message ui;
     available_recordings := Some recordings |}.

(** [next(display for note_id, display in values if note_id == note)] *)
Fixpoint display_of (note : string) (values : list (string * string)) : option string :=
  match values with
  | [] => None
  | (note_id, display) :: values' =>
      if String.eqb note_id note then Some display else display_of note values'
  end.

Definition update_last_note (note : pyval) (ui : MusicUI) : MusicUI :=
  match note with
  | PyStr n =>
      match display_of n (key_to_note.*2) with
      | Some display_note =>
          {| current_mode := current_mode ui;
             last_played_note := display_note +:+ " (" +:+ n +:+ ")";
             status_message := status_message ui;
             available_recordings := available_recordings ui |}
      | None => ui
      end
  | _ => ui
  end.

Definition set_status (message : string) (ui : MusicUI) : MusicUI :=
  {| current_mode := current_mode ui;
     last_played_note := last_played_note ui;
     status_message := message;
     available_recordings := available_recordings ui |}.

Definition set_mode (m : mode) (ui : MusicUI) : MusicUI :=
  {| current_mode := m;
     last_played_note := last_played_note ui;
     status_message := status_message ui;
     available_recordings := available_recordings ui |}.

End UI.

Arguments UI.update_last_note : simpl never.

(** ** MusicInstrument *)

(** The five attributes of the class, and next to them the surroundings the
    handlers act on: the files of [recordings/], the playback threads that
    were started, and the effects seen so far. *)
Record MusicInstrument : Type := {
  sound_manager : SoundManager;
  recording_manager : RecordingManager;
  ui : MusicUI;
  running : bool;
  selection_mode_recordings : list string;
  disk : gmap string file;
  threads : list (playback);
  heard : list effect
}.

Definition with_recording_manager (rm : RecordingManager) (w : MusicInstrument) : MusicInstrument :=
  {| sound_manager := sound_manager w; recording_manager := rm; ui := ui w;
     running := running w; selection_mode_recordings := selection_mode_recordings w;
     disk := disk w; threads := threads w; heard := heard w |}.

Definition with_ui (u : MusicUI) (w : MusicInstrument) : MusicInstrument :=
  {| sound_manager := sound_manager w; recording_manager := recording_manager w; ui := u;
     running := running w; selection_mode_recordings := selection_mode_recordings w;
     disk := disk w; threads := threads w; heard := heard w |}.

Definition with_running (b : bool) (w : MusicInstrument) : MusicInstrument :=
  {| sound_manager := sound_manager w; recording_manager := recording_manager w; ui := ui w;
     running := b; selection_mode_recordings := selection_mode_recordings w;
     disk := disk w; threads := threads w; heard := heard w |}.

Definition with_selection (l : list string) (w : MusicInstrument) : MusicInstrument :=
  {| sound_manager := sound_manager w; recording_manager := recording_manager w; ui := ui w;
     running := running w; selection_mode_recordings := l;
     disk := disk w; threads := threads w; heard := heard w |}.

Definition with_disk (d : gmap string file) (w : MusicInstrument) : MusicInstrument :=
  {| sound_manager := sound_manager w; recording_manager := recording_manager w; ui := ui w;
     running := running w; selection_mode_recordings := selection_mode_recordings w;
     disk := d; threads := threads w; heard := heard w |}.

Definition with_threads (ts : list playback) (w : MusicInstrument) : MusicInstrument :=
  {| sound_manager := sound_manager w; recording_manager := recording_manager w; ui := ui w;
     running := running w; selection_mode_recordings := selection_mode_recordings w;
     disk := disk w; threads := ts; heard := heard w |}.

Definition with_heard (h : list effect) (w : MusicInstrument) : MusicInstrument :=
  {| sound_manager := sound_manager w; recording_manager := recording_manager w; ui := ui w;
     running := running w; selection_mode_recordings := selection_mode_recordings w;
     disk := disk w; threads := threads w; heard := h |}.

Definition set_mode (m : mode) (w : MusicInstrument) : MusicInstrument :=
  with_ui (UI.set_mode m (ui w)) w.

Definition set_status (message : string) (w : MusicInstrument) : MusicInstrument :=
  with_ui (UI.set_status message (ui w)) w.

(** [__init__], for the samples found in [sounds/] and the files found in
    [recordings/]. *)
Definition init (samples : gset string) (files : gmap string file) : MusicInstrument :=
  {| sound_manager := {| sounds := samples |};
     recording_manager := RM.init;
     ui := UI.init;
     running := true;
     selection_mode_recordings := [];
     disk := files;
     threads := [];
     heard := [] |}.

(** The manager after an [append] to the buffer: the threads that iterate
    over the buffer see the new items. *)
Definition appended_buffer (rm : RecordingManager) (w : MusicInstrument) : MusicInstrument :=
  with_threads
    (see_append (appended (current_recording (recording_manager w)) (current_recording rm))
       <$> threads w)
    (with_recording_manager rm w).

(** The manager after [self.current_recording] was bound to a new object
    ([start_recording], a successful [load_recording]). *)
Definition rebound_buffer (rm : RecordingManager) (w : MusicInstrument) : MusicInstrument :=
  with_threads (detach <$> threads w) (with_recording_manager rm w).

(** [RecordingManager.playback_recording] with the two arguments both call
    sites pass: [self.sound_manager] and [callback=self.ui.update_last_note].
    It returns nothing; all it does is start the thread, if there is
    something to play.  The thread gets no copy of the buffer. *)
Definition playback_recording (w : MusicInstrument) : MusicInstrument :=
  if negb (py_truthy (current_recording (recording_manager w))) then w
  else with_threads (threads w ++ [PbStart]) w.

(** [str.lower], on ASCII letters. *)
Definition lower_ascii (c : Ascii.ascii) : Ascii.ascii :=
  let n := Ascii.nat_of_ascii c in
  if (65 <=? n)%nat && (n <=? 90)%nat then Ascii.ascii_of_nat (n + 32) else c.

Fixpoint lower (s : string) : string :=
  match s with
  | EmptyString => EmptyString
  | String c s' => String (lower_ascii c) (lower s')
  end.

(** [self.ui.key_to_note[key]], [None] when [key not in self.ui.key_to_note]. *)
Fixpoint lookup_key (key : string) (d : list (string * (string * string)))
    : option (string * string) :=
  match d with
  | [] => None
  | (k, v) :: d' => if String.eqb k key then Some v else lookup_key key d'
  end.

Definition _on_note_key (e : env) (name : string) (w : MusicInstrument)
    : option MusicInstrument :=
  let key := lower name in
  match lookup_key key UI.key_to_note with
  | Some (note_id, display_note) =>
      effs ← play_note (sound_manager w) (PyStr note_id);
      let w1 := with_heard (heard w ++ effs) w in
      let w2 := with_ui (UI.update_last_note (PyStr note_id) (ui w1)) w1 in
      if is_recording (recording_manager w2) then
        rm ← RM.add_note note_id (now e) (recording_manager w2);
        Some (appended_buffer rm w2)
      else Some w2
  | None => Some w
  end.

Definition _on_escape (w : MusicInstrument) : option MusicInstrument :=
  match current_mode (ui w) with
  | M_menu => Some w
  | _ =>
      w1 ← (if is_recording (recording_manager w) then
              let '(rm, count) := RM.stop_recording (recording_manager w) in
              _ ← count;
              Some (set_status "Recording cancelled" (with_recording_manager rm w))
            else Some w);
      Some (with_selection [] (set_status "Returned to main menu" (set_mode M_menu w1)))
  end.

Definition _on_space (w : MusicInstrument) : option MusicInstrument :=
  match current_mode (ui w) with
  | M_record =>
      let '(rm, count) := RM.stop_recording (recording_manager w) in
      notes_count ← count;
      Some (set_status ("Recording stopped. Captured " +:+ pretty notes_count +:+ " notes.")
              (set_mode M_menu (with_recording_manager rm w)))
  | _ => Some w
  end.

(** The number keys are hooked for ['1'] to ['9']; [key] is the digit, so
    [key == '2'] reads [key = 2] and [int(key)] is [key] itself. *)
Definition _handle_menu_selection (e : env) (key : nat) (w : MusicInstrument)
    : MusicInstrument :=
  match key with
  | 1 => set_status "Live play mode activated" (set_mode M_live w)
  | 2 =>
      let w1 := rebound_buffer (RM.start_recording (now e) (recording_manager w)) w in
      set_status "Recording started" (set_mode M_record w1)
  | 3 =>
      if py_truthy (current_recording (recording_manager w)) then
        playback_recording
          (set_status "Playing back last recording..." (set_mode M_playback w))
      else set_status "No recording available to play" w
  | 4 =>
      if py_truthy (current_recording (recording_manager w)) then
        let filename := "recording_" +:+ strftime_now e in
        let '(saved, d) := RM.save_recording filename e (recording_manager w) (disk w) in
        if saved
        then set_status ("Recording saved as " +:+ filename +:+ ".json") (with_disk d w)
        else set_status "Failed to save recording" (with_disk d w)
      else set_status "No recording to save" w
  | 5 =>
      let recordings := RM.get_available_recordings (disk w) in
      if negb (bool_decide (recordings = [])) then
        let w1 := with_selection recordings w in
        let w2 := with_ui (UI.set_available_recordings recordings (ui w1)) w1 in
        set_status "Select a recording to load and play" (set_mode M_select_recording w2)
      else set_status "No recordings found" w
  | 6 => with_running false w
  | _ => w
  end.

Definition _handle_recording_selection (e : env) (key : nat) (w : MusicInstrument)
    : MusicInstrument :=
  let selection := (Z.of_nat key - 1)%Z in
  if (0 <=? selection)%Z && (selection <? Z.of_nat (length (selection_mode_recordings w)))%Z then
    match selection_mode_recordings w !! Z.to_nat selection with
    | Some selected_recording =>
        let '(loaded, rm) :=
          RM.load_recording selected_recording e (recording_manager w) (disk w) in
        if loaded then
          playback_recording
            (set_status ("Loaded and playing: " +:+ selected_recording)
               (set_mode M_playback (rebound_buffer rm w)))
        else set_status "Failed to load recording" w
    | None => w
    end
  else set_status "Invalid selection" w.

Definition _on_number_key (e : env) (key : nat) (w : MusicInstrument) : MusicInstrument :=
  match current_mode (ui w) with
  | M_menu => _handle_menu_selection e key w
  | M_select_recording => _handle_recording_selection e key w
  | _ => w
  end.

(** One step of the [i]-th playback thread; its callback writes to the UI
    object the handlers write to. *)
Definition thread_step (e : env) (i : nat) (w : MusicInstrument) : MusicInstrument :=
  match threads w !! i with
  | Some p =>
      let '(p', effs, u) :=
        playback_step (sound_manager w) (Some UI.update_last_note) (now e)
          (current_recording (recording_manager w)) p (ui w) in
      with_heard (heard w ++ effs) (with_ui u (with_threads (<[i := p']> (threads w)) w))
  | None => w
  end.

(** The number keys that have a hook: [for i in range(1, 10)]. *)
Definition hooked_digit (digit : nat) : bool :=
  (1 <=? digit) && (digit <=? 9).

(** What can happen next: one of the hooked keys is pressed, or one of the
    playback threads moves.  A number key that has no hook reaches no
    handler. *)
Inductive event : Type :=
| NoteKey (name : string)
| EscapeKey
| SpaceKey
| NumberKey (digit : nat)
| ThreadStep (i : nat).

Definition step (e : env) (ev : event) (w : MusicInstrument) : option MusicInstrument :=
  match ev with
  | NoteKey name => _on_note_key e name w
  | EscapeKey => _on_escape w
  | SpaceKey => _on_space w
  | NumberKey digit =>
      Some (if hooked_digit digit then _on_number_key e digit w else w)
  | ThreadStep i => Some (thread_step e i w)
  end.

Fixpoint run (evs : list (env * event)) (w : MusicInstrument) : option MusicInstrument :=
  match evs with
  | [] => Some w
  | (e, ev) :: evs' => step e ev w ≫= run evs'
  end.

(** ** Recordings as sequences of events *)

(** What [add_note] appends for a note and its offset. *)
Definition note_event (ev : string * Z) : pyval :=
  PyTuple [PyStr ev.1; PyNum ev.2].

(** The buffer that holds the events [evs], as recording builds it. *)
Definition recording_of (evs : list (string * Z)) : pyval :=
  PyList (note_event <$> evs).

(** The event an item of a recording stands for: what
    [for note, timestamp in ...] unpacks from it, when that is a note name
    and a number.  An item made by [add_note] (a tuple) and the same item
    read back by [json.load] (a list) stand for the same event. *)
Definition event_of (item : pyval) : option (string * Z) :=
  match py_unpack2 item with
  | Some (PyStr note, PyNum timestamp) => Some (note, timestamp)
  | _ => None
  end.

Definition events_of (recording : pyval) : option (list (string * Z)) :=
  py_iter recording ≫= mapM event_of.

(** Calls of the recording engine, each with the clock reading it takes. *)
Inductive rm_call : Type :=
| Start (t : Z)
| AddNote (note : string) (t : Z)
| Stop.

Definition rm_call_run (c : rm_call) (rm : RecordingManager) : option RecordingManager :=
  match c with
  | Start t => Some (RM.start_recording t rm)
  | AddNote note t => RM.add_note note t rm
  | Stop => Some (RM.stop_recording rm).1
  end.

Fixpoint rm_run (calls : list rm_call) (rm : RecordingManager) : option RecordingManager :=
  match calls with
  | [] => Some rm
  | c :: calls' => rm_call_run c rm ≫= rm_run calls'
  end.

(** The clock readings a sequence of calls takes, in order. *)
Fixpoint readings (calls : list rm_call) : list Z :=
  match calls with
  | [] => []
  | Start t :: calls' => t :: readings calls'
  | AddNote _ t :: calls' => t :: readings calls'
  | Stop :: calls' => readings calls'
  end.

(** [record_event] for each [(note, t)] in turn, [t] being the clock
    reading of the call. *)
Definition add_notes (notes : list (string * Z)) : list rm_call :=
  (fun nt => AddNote nt.1 nt.2) <$> notes.

(** ** The schedule of a playback, in the words of the specification *)

(** For each event in order: wait until [playback_start + offset] if that
    is still ahead, trigger the note, then call the callback if any.
    [clock k] is the reading taken before the [k]-th event (from 1). *)
Fixpoint schedule (sm : SoundManager) (with_callback : bool) (playback_start : Z)
    (clock : nat -> Z) (k : nat) (evs : list (string * Z)) : list effect :=
  match evs with
  | [] => []
  | (note, offset) :: evs' =>
      let target := (playback_start + offset)%Z in
      (if (clock k <? target)%Z then [Sleep (target - clock k)%Z] else [])
      ++ [Trigger (PyStr note) (bool_decide (note ∈ sounds sm))]
      ++ (if with_callback then [Callback (PyStr note)] else [])
      ++ schedule sm with_callback playback_start clock (S k) evs'
  end.

(** The notes triggered by a run, in the order of the triggers. *)
Fixpoint triggered (effs : list effect) : list pyval :=
  match effs with
  | [] => []
  | Trigger note _ :: effs' => note :: triggered effs'
  | _ :: effs' => triggered effs'
  end.

(** ** Runs of the whole program *)

(** The states the program can get into, from any set of samples and any
    content of [recordings/], by key events and thread steps.  The clock
    never reads exactly 0 (the epoch itself). *)
Inductive reachable : MusicInstrument -> Prop :=
| reachable_init samples files : reachable (init samples files)
| reachable_step w e ev w' :
    reachable w -> now e ≠ 0%Z -> step e ev w = Some w' -> reachable w'.

(** What holds of the recording session in every such state. *)
Definition session_inv (w : MusicInstrument) : Prop :=
  (is_recording (recording_manager w) = true <-> current_mode (ui w) = M_record)
  /\ (is_recording (recording_manager w) = true ->
      exists s l, s ≠ 0%Z
        /\ recording_start_time (recording_manager w) = Some s
        /\ current_recording (recording_manager w) = PyList l)
  /\ (current_mode (ui w) = M_select_recording ->
      available_recordings (ui w) = Some (selection_mode_recordings w)).






(** The steps of thread [i] when nothing else happens, for the events
    [evs]: for each event the step that reads the clock ([clock k] for the
    [k]-th event) and, when the target lies ahead, the step that wakes up
    at the target; at last the step that finds no further item.  [mk t]
    is the surroundings at clock reading [t]. *)
Fixpoint loop_steps (mk : Z -> env) (i : nat) (start_time : Z) (clock : nat -> Z) (k : nat)
    (evs : list (string * Z)) : list (env * event) :=
  match evs with
  | [] => [(mk (clock k), ThreadStep i)]
  | (_, offset) :: evs' =>
      let target := (start_time + offset)%Z in
      (mk (clock k), ThreadStep i)
      :: (if (clock k <? target)%Z then [(mk target, ThreadStep i)] else [])
      ++ loop_steps mk i start_time clock (S k) evs'
  end.

(** The whole thread: [start_time = time.time()] is reading 0. *)
Definition thread_steps (mk : Z -> env) (i : nat) (clock : nat -> Z)
    (evs : list (string * Z)) : list (env * event) :=
  (mk (clock 0%nat), ThreadStep i) :: loop_steps mk i (clock 0%nat) clock 1 evs.

(** The events a sequence of note-key presses leaves in a take started
    at [s]: one per key of the catalog, at the offset of its press. *)
Fixpoint take_of (s : Z) (presses : list (env * string)) : list (string * Z) :=
  match presses with
  | [] => []
  | (e, name) :: presses' =>
      match lookup_key (lower name) UI.key_to_note with
      | Some (note_id, _) => (note_id, (now e - s)%Z) :: take_of s presses'
      | None => take_of s presses'
      end
  end.

Definition press (p : env * string) : env * event := (p.1, NoteKey p.2).

(** A step of the surroundings in which I/O works, at clock reading [t]. *)
Definition at_time (t : Z) : env :=
  {| now := t; strftime_now := "20240101_120000";
     isoformat_now := "2024-01-01T12:00:00"; io_ok := true |}.

(** The events a stored file holds under ['notes'], read the way
    [load_recording] reads them. *)
Definition stored_events (f : file) : option (list (string * Z)) :=
  match f with
  | Doc j =>
      match of_json j with
      | PyDict d => events_of (dict_get "notes" (PyList []) d)
      | _ => None
      end
  | Malformed => None
  end.

(** What holds of the buffer between two calls of the engine, [hi] being
    the last clock reading taken: the offsets are non-negative and in
    non-decreasing order, and during a take none lies beyond [hi]. *)
Definition take_inv (hi : Z) (rm : RecordingManager) : Prop :=
  exists evs,
    current_recording rm = recording_of evs
    /\ Sorted Z.le evs.*2
    /\ Forall (Z.le 0) evs.*2
    /\ (is_recording rm = true ->
        exists s, recording_start_time rm = Some s
          /\ (s <= hi)%Z
          /\ Forall (fun t => (t <= hi - s)%Z) evs.*2).

(** The state the callbacks of a playback leave behind. *)
Definition after_callbacks {St : Type} (callback : option (pyval -> St -> St))
    (evs : list (string * Z)) (s : St) : St :=
  match callback with
  | Some cb => foldl (fun s' ev => cb (PyStr ev.1) s') s evs
  | None => s
  end.

Definition has_callback {St : Type} (callback : option (pyval -> St -> St)) : bool :=
  match callback with
  | Some _ => true
  | None => false
  end.

(** A state to try things on: the samples of Sa and Re are loaded,
    [recordings/] is empty, and '2' was pressed in the menu at reading 100. *)
Definition fresh : MusicInstrument := init {["sa"; "re"]} ∅.

Definition recording_from_100 : MusicInstrument :=
  _on_number_key (at_time 100) 2 fresh.

(** [recordings/] holds one file, [a.json], that is not JSON. *)
Definition with_bad_file : MusicInstrument := init {["sa"; "re"]} {["a" := Malformed]}.

(** The same with a well-formed [a.json] of two notes, and '5' pressed in
    the menu: the program waits for the choice of a recording. *)
Definition two_notes : list (string * Z) := [("sa", 0%Z); ("re", 1000%Z)].

Definition with_good_file : MusicInstrument :=
  init {["sa"; "re"]}
    {["a" := Doc (to_json (PyDict [("timestamp", PyStr "2024-01-01T12:00:00");
                                   ("notes", recording_of two_notes)]))]}.

Definition selecting : MusicInstrument :=
  _on_number_key (at_time 10) 5 with_good_file.

(** '1' was pressed there: [a.json] is loaded and its playback has started. *)
Definition playing : MusicInstrument :=
  _on_number_key (at_time 20) 1 selecting.



(** [recordings/] holds one file whose ['notes'] is a number, and that
    file was chosen: the buffer is now that number. *)
Definition with_odd_file : MusicInstrument :=
  init {["sa"; "re"]} {["a" := Doc (JObj [("notes", JNum 5)])]}.

Definition odd_loaded : MusicInstrument :=
  _on_number_key (at_time 20) 1 (_on_number_key (at_time 10) 5 with_odd_file).


(** ** More of the source: loading the samples, the selection panel *)

(** The table [note_files] of [SoundManager._load_sounds]. *)
Definition note_files : list (string * string) :=
  [("sa", "sa.wav"); ("re", "re.wav"); ("ga", "ga.wav"); ("ma", "ma.wav");
   ("pa", "pa.wav"); ("dha", "dha.wav"); ("ni", "ni.wav"); ("sa_high", "sa_high.wav")].

(** [SoundManager._load_sounds]: for each entry of the table, in order, the
    note gets a sound when its file is in [sounds/] ([present]) and
    [pygame.mixer.Sound] accepts the file ([loadable]); otherwise a message
    is printed and the note gets none. *)
Definition _load_sounds (present loadable : string -> bool) : gset string :=
  foldl (fun sounds nf =>
           if present nf.2 then
             if loadable nf.2 then {[nf.1]} ∪ sounds else sounds
           else sounds)
        ∅ note_files.

(** [MusicInstrument.__init__] over [_load_sounds]. *)
Definition init_from (present loadable : string -> bool) (files : gmap string file)
    : MusicInstrument :=
  init (_load_sounds present loadable) files.

Definition newline : string := String (Ascii.ascii_of_nat 10) EmptyString.

(** [MusicUI._create_recording_selector]: the pieces of text appended to
    the panel's [Text], in order (styles, title and border left out).
    [enumerate(..., 1)] numbers the recordings from 1. *)
Definition _create_recording_selector (u : MusicUI) : list string :=
  ["🎵 Select Recording to Play 🎵" +:+ newline +:+ newline]
  ++ match available_recordings u with
     | Some (r :: rs) =>
         ["Available recordings:" +:+ newline +:+ newline]
         ++ imap (fun i recording => pretty (S i) +:+ ". " +:+ recording +:+ newline) (r :: rs)
         ++ [newline +:+ "Press 1-" +:+ pretty (length (r :: rs))
               +:+ " to select a recording" +:+ newline]
     | _ => ["No recordings found." +:+ newline]
     end
  ++ ["Press ESC to return to menu"].

(** A value as [json.load] builds them: no tuple inside, and no key twice
    in a dict. *)
Fixpoint json_native (v : pyval) : bool :=
  match v with
  | PyTuple _ => false
  | PyList l => forallb json_native l
  | PyDict d =>
      forallb (fun kv => match kv with (_, x) => json_native x end) d
      && bool_decide (NoDup d.*1)
  | _ => true
  end.

Definition positive_sleep (eff : effect) : Prop :=
  match eff with
  | Sleep d => (0 < d)%Z
  | _ => True
  end.

(** Closes the goals about what a handler leaves as it is. *)
Ltac frame_solve :=
  solve [cbn; repeat split; first [done | by left | right; by repeat split]].

(** * Properties *)

(** ** Events of a recording *)

Lemma event_of_note_event ev : event_of (note_event ev) = Some ev.
Proof. by destruct ev. Qed.

Lemma mapM_event_of_note_events evs : mapM event_of (note_event <$> evs) = Some evs.
Proof.
  induction evs as [|ev evs IH]; first done.
  rewrite fmap_cons. cbn [mapM]. rewrite event_of_note_event. cbn.
  by rewrite IH.
Qed.

Lemma events_of_recording_of evs : events_of (recording_of evs) = Some evs.
Proof. unfold events_of, recording_of. cbn. apply mapM_event_of_note_events. Qed.

Lemma py_truthy_recording_of evs : py_truthy (recording_of evs) = negb (bool_decide (evs = [])).
Proof. by destruct evs. Qed.

(** What [json.load] gives back for a buffer written by [json.dump]: the
    same events, each now a list of two items. *)
Lemma of_json_to_json_recording evs :
  of_json (to_json (recording_of evs))
  = PyList ((fun ev => PyList [PyStr ev.1; PyNum ev.2]) <$> evs).
Proof.
  unfold recording_of. cbn. f_equal.
  rewrite <- !list_fmap_compose. apply list_fmap_ext. by intros ? [].
Qed.

Lemma events_of_reloaded evs :
  events_of (of_json (to_json (recording_of evs))) = Some evs.
Proof.
  rewrite of_json_to_json_recording. unfold events_of. cbn.
  induction evs as [|[note t] evs IH]; first done.
  rewrite fmap_cons. cbn [mapM]. cbn. by rewrite IH.
Qed.

(** ** Saving and loading *)

(** C1, as stated, fails on the empty recording: [save_recording] returns
    [False] without writing anything ([if not self.current_recording]), and
    the load that follows finds no file. *)
Lemma empty_recording_is_not_saved :
  current_recording RM.init = recording_of []
  /\ RM.save_recording "take" (at_time 5) RM.init ∅ = (false, ∅)
  /\ RM.load_recording "take" (at_time 6) RM.init
       (RM.save_recording "take" (at_time 5) RM.init ∅).2 = (false, RM.init).
Proof. done. Qed.

(** C1, amended: for every non-empty recording [evs] and every name [n],
    when the file can be opened for the write and for the read, saving under
    [n] and then loading [n] both succeed, and the loaded recording has
    exactly the events [evs] (the stored timestamp plays no part). *)
Theorem save_load_roundtrip (evs : list (string * Z)) (n : string) (e e' : env)
    (rm rm0 : RecordingManager) (d : gmap string file) :
  evs ≠ [] ->
  io_ok e = true ->
  io_ok e' = true ->
  current_recording rm = recording_of evs ->
  exists d' rm',
    RM.save_recording n e rm d = (true, d')
    /\ RM.load_recording n e' rm0 d' = (true, rm')
    /\ events_of (current_recording rm') = Some evs.
Proof.
  intros Hne He He' Hcr.
  unfold RM.save_recording. rewrite Hcr, py_truthy_recording_of, He.
  rewrite bool_decide_eq_false_2 by done. cbn [negb].
  eexists _, _. split; first reflexivity.
  unfold RM.load_recording. rewrite lookup_insert_eq, He'.
  split; first reflexivity.
  cbn [current_recording]. change (dict_get _ _ _) with (of_json (to_json (recording_of evs))).
  apply events_of_reloaded.
Qed.

Lemma save_load_roundtrip_witness :
  exists d' rm',
    RM.save_recording "take" (at_time 5)
      (RM.stop_recording
         {| current_recording := recording_of [("sa", 0%Z); ("re", 500%Z)];
            recording_start_time := Some 1%Z; is_recording := true |}).1 ∅ = (true, d')
    /\ RM.load_recording "take" (at_time 6) RM.init d' = (true, rm')
    /\ events_of (current_recording rm') = Some [("sa", 0%Z); ("re", 500%Z)].
Proof.
  apply (save_load_roundtrip [("sa", 0%Z); ("re", 500%Z)]); [discriminate | reflexivity..].
Defined.

(** ** The recording engine *)

Lemma add_notes_while_recording notes s l :
  s ≠ 0%Z ->
  rm_run (add_notes notes)
    {| current_recording := PyList l; recording_start_time := Some s; is_recording := true |}
  = Some {| current_recording :=
              PyList (l ++ ((fun nt => note_event (nt.1, (nt.2 - s)%Z)) <$> notes));
            recording_start_time := Some s; is_recording := true |}.
Proof.
  intros Hs. revert l. induction notes as [|[note t] notes IH]; intros l.
  - cbn. by rewrite app_nil_r.
  - cbn [add_notes fmap list_fmap rm_run rm_call_run fst snd].
    unfold RM.add_note. cbn.
    destruct (Z.eqb_spec s 0) as [|_]; first done. cbn.
    fold (add_notes notes). rewrite IH. by rewrite <- app_assoc.
Qed.

(** C5: [add_note] called while [is_recording] is false changes nothing and
    raises nothing, whatever the notes and however many the calls. *)
Theorem add_note_inactive_is_noop (notes : list (string * Z)) (rm : RecordingManager) :
  is_recording rm = false ->
  rm_run (add_notes notes) rm = Some rm.
Proof.
  intros Hoff. induction notes as [|[note t] notes IH]; first done.
  cbn [add_notes fmap list_fmap rm_run rm_call_run fst snd].
  unfold RM.add_note. rewrite Hoff. cbn. apply IH.
Qed.

Lemma add_note_inactive_is_noop_witness :
  rm_run (add_notes [("sa", 10%Z); ("re", 20%Z); ("sa", 30%Z)])
    (RM.stop_recording (RM.start_recording 5 RM.init)).1
  = Some (RM.stop_recording (RM.start_recording 5 RM.init)).1.
Proof. apply add_note_inactive_is_noop. reflexivity. Defined.

(** C6: [stop_recording] lowers the flag, returns the length of the buffer
    and leaves the buffer and the start time as they are; after a start at
    clock reading [s] and notes recorded at the offsets of [take] (in
    particular offsets [t1 <= ... <= tn]), it returns [n = length take] and
    the buffer holds exactly the events of [take], in their order.  The
    start reading [s] is not 0. *)
Theorem stop_returns_count (s : Z) (take : list (string * Z)) (rm0 : RecordingManager) :
  s ≠ 0%Z ->
  (forall rm,
      is_recording (RM.stop_recording rm).1 = false
      /\ current_recording (RM.stop_recording rm).1 = current_recording rm
      /\ recording_start_time (RM.stop_recording rm).1 = recording_start_time rm)
  /\ exists rm,
      rm_run (Start s :: add_notes ((fun ev => (ev.1, (s + ev.2)%Z)) <$> take)) rm0 = Some rm
      /\ current_recording rm = recording_of take
      /\ RM.stop_recording rm
         = ({| current_recording := recording_of take;
               recording_start_time := Some s;
               is_recording := false |}, Some (length take)).
Proof.
  intros Hs. split; first done.
  cbn [rm_run rm_call_run mbind option_bind]. unfold RM.start_recording.
  rewrite add_notes_while_recording by done.
  assert (((fun nt : string * Z => note_event (nt.1, (nt.2 - s)%Z))
             <$> ((fun ev : string * Z => (ev.1, (s + ev.2)%Z)) <$> take))
          = note_event <$> take) as ->.
  { rewrite <- list_fmap_compose. apply list_fmap_ext. intros _ [note t] _. cbn.
    unfold note_event. cbn. by replace (s + t - s)%Z with t by lia. }
  eexists. split; first reflexivity. split; first done.
  unfold RM.stop_recording, recording_of. cbn. by rewrite length_fmap.
Qed.

Lemma stop_returns_count_witness :
  exists rm,
    rm_run [Start 100; AddNote "sa" 100; AddNote "re" 600; AddNote "ga" 1300] RM.init = Some rm
    /\ RM.stop_recording rm
       = ({| current_recording := recording_of [("sa", 0%Z); ("re", 500%Z); ("ga", 1200%Z)];
             recording_start_time := Some 100%Z;
             is_recording := false |}, Some 3%nat).
Proof.
  destruct (stop_returns_count 100 [("sa", 0%Z); ("re", 500%Z); ("ga", 1200%Z)] RM.init)
    as [_ (rm & Hrun & _ & Hstop)]; first discriminate.
  exists rm. split; [exact Hrun | exact Hstop].
Defined.

(** ** Offsets of a take *)

Lemma Sorted_snoc (l : list Z) (t : Z) :
  Sorted Z.le l -> Forall (fun x => (x <= t)%Z) l -> Sorted Z.le (l ++ [t]).
Proof.
  induction l as [|x l IH]; intros Hs Hle; cbn.
  - repeat constructor.
  - apply Sorted_inv in Hs as [Hs Hhd]. apply Forall_cons in Hle as [Hx Hle].
    constructor; first by apply IH.
    destruct l; cbn; constructor; [done | by inversion Hhd].
Qed.

Lemma take_inv_later hi hi' rm : (hi <= hi')%Z -> take_inv hi rm -> take_inv hi' rm.
Proof.
  intros Hle (evs & Hcr & Hs & Hpos & Hrec).
  exists evs. repeat split; try done.
  intros Hon. destruct (Hrec Hon) as (s & Hst & Hshi & Hbound).
  exists s. split; first done. split; first lia.
  eapply Forall_impl; first exact Hbound. cbn. intros; lia.
Qed.

Lemma take_inv_call (c : rm_call) (hi : Z) (rm : RecordingManager) :
  Forall (Z.le hi) (readings [c]) ->
  take_inv hi rm ->
  exists rm', rm_call_run c rm = Some rm'
    /\ take_inv (default hi (head (readings [c]))) rm'.
Proof.
  intros Hlate Hinv. destruct c as [t|note t|]; cbn in Hlate |- *.
  - exists (RM.start_recording t rm). split; first done.
    exists []. cbn. repeat split; try constructor.
    intros _. exists t. split; first done. split; [lia | constructor].
  - apply Forall_cons in Hlate as [Ht _].
    unfold RM.add_note.
    destruct (is_recording rm && RM.start_time_truthy (recording_start_time rm)) eqn:Hon.
    + apply andb_prop in Hon as [Hon _].
      destruct Hinv as (evs & Hcr & Hs & Hpos & Hrec).
      destruct (Hrec Hon) as (s & Hst & Hshi & Hbound).
      rewrite Hst, Hcr. unfold recording_of.
      eexists. split; first reflexivity.
      exists (evs ++ [(note, (t - s)%Z)]). cbn.
      split; first (unfold recording_of; by rewrite fmap_app).
      rewrite !fmap_app. cbn. repeat split.
      * apply Sorted_snoc; first done.
        eapply Forall_impl; first exact Hbound. cbn. intros; lia.
      * apply Forall_app. split; first done. repeat constructor. lia.
      * intros _. exists s. split; first done. split; first lia.
        apply Forall_app. split.
        -- eapply Forall_impl; first exact Hbound. cbn. intros; lia.
        -- repeat constructor. lia.
    + exists rm. split; first done. by apply (take_inv_later hi).
  - exists (RM.stop_recording rm).1. split; first done.
    destruct Hinv as (evs & Hcr & Hs & Hpos & _).
    exists evs. by repeat split.
Qed.

Lemma take_inv_run (calls : list rm_call) (hi : Z) (rm : RecordingManager) :
  Sorted Z.le (readings calls) ->
  Forall (Z.le hi) (readings calls) ->
  take_inv hi rm ->
  exists rm' hi', rm_run calls rm = Some rm' /\ take_inv hi' rm'.
Proof.
  revert hi rm. induction calls as [|c calls IH]; intros hi rm Hs Hlate Hinv.
  - by exists rm, hi.
  - assert (readings (c :: calls) = readings [c] ++ readings calls) as Hsplit.
    { destruct c; cbn; by rewrite ?app_nil_r. }
    rewrite Hsplit in Hs, Hlate. apply Forall_app in Hlate as [Hc Hrest].
    destruct (take_inv_call c hi rm Hc Hinv) as (rm1 & Hrun1 & Hinv1).
    destruct (IH (default hi (head (readings [c]))) rm1)
      as (rm' & hi' & Hrun & Hinv'); [| |exact Hinv1|].
    + destruct c; cbn in Hs; try done; by apply Sorted_inv in Hs as [? _].
    + destruct c as [t|note t|]; cbn in Hs |- *; try done;
        (apply Sorted_extends in Hs; last (intros x y z; apply Z.le_trans)); done.
    + exists rm', hi'. split; last done.
      cbn [rm_run]. by rewrite Hrun1.
Qed.

Lemma stored_events_saved (iso : string) evs :
  stored_events
    (Doc (to_json (PyDict [("timestamp", PyStr iso); ("notes", recording_of evs)])))
  = Some evs.
Proof.
  unfold stored_events.
  change (of_json (to_json (PyDict [("timestamp", PyStr iso); ("notes", recording_of evs)])))
    with (PyDict [("timestamp", PyStr iso);
                  ("notes", of_json (to_json (recording_of evs)))]).
  cbn [dict_get String.eqb Ascii.eqb Bool.eqb]. apply events_of_reloaded.
Qed.

(** C9, as stated, fails when the clock is set back during a take: the
    offsets are differences of readings of [time.time()], the wall clock,
    and nothing sorts or checks them.  A take started at reading 200, with a
    note at reading 300 and, the clock having been set back, a note at
    reading 190, holds the offsets 100 and -10. *)
Lemma clock_set_back_breaks_the_order :
  current_recording
    <$> rm_run [Start 200; AddNote "sa" 300; AddNote "re" 190; Stop] RM.init
  = Some (recording_of [("sa", 100%Z); ("re", (-10)%Z)])
  /\ ~ Forall (Z.le 0) [("sa", 100%Z); ("re", (-10)%Z)].*2
  /\ ~ Sorted Z.le [("sa", 100%Z); ("re", (-10)%Z)].*2.
Proof.
  split; first reflexivity. split; intros Hbad; cbn in Hbad.
  - apply Forall_cons in Hbad as [_ Hbad]. apply Forall_cons in Hbad as [Hbad _]. lia.
  - apply Sorted_inv in Hbad as [_ Hbad]. apply HdRel_inv in Hbad. lia.
Qed.

(** C9, amended: whatever calls of [start_recording], [add_note] and
    [stop_recording] are made on a fresh engine, as long as the clock
    readings they take never go backwards, the buffer is a sequence of
    events whose offsets are non-negative and in non-decreasing order (ties
    allowed); nothing sorts it, and every record saved from it holds these
    same events. *)
Theorem recorded_offsets_sorted (calls : list rm_call) :
  Sorted Z.le (readings calls) ->
  exists rm evs,
    rm_run calls RM.init = Some rm
    /\ current_recording rm = recording_of evs
    /\ Forall (Z.le 0) evs.*2
    /\ Sorted Z.le evs.*2
    /\ forall n e d d',
         RM.save_recording n e rm d = (true, d') ->
         exists f, d' !! n = Some f /\ stored_events f = Some evs.
Proof.
  intros Hs.
  destruct (take_inv_run calls (default 0%Z (head (readings calls))) RM.init)
    as (rm & hi & Hrun & evs & Hcr & Hsorted & Hpos & _); first done.
  - destruct (readings calls) as [|t ts]; first constructor.
    cbn. constructor; first lia.
    apply Sorted_extends in Hs; [done | intros x y z; apply Z.le_trans].
  - exists []. repeat split; try constructor. intros; discriminate.
  - exists rm, evs. repeat split; try done.
    intros n e d d'. unfold RM.save_recording. rewrite Hcr.
    destruct (negb (py_truthy (recording_of evs))); first (intros; discriminate).
    destruct (io_ok e); last (intros; discriminate).
    intros [= <-]. eexists. split; first apply lookup_insert_eq.
    apply stored_events_saved.
Qed.

Lemma recorded_offsets_sorted_witness :
  exists rm evs,
    rm_run [Start 100; AddNote "sa" 100; AddNote "re" 600; Stop; AddNote "ga" 700] RM.init
    = Some rm
    /\ current_recording rm = recording_of evs
    /\ Forall (Z.le 0) evs.*2
    /\ Sorted Z.le evs.*2
    /\ forall n e d d',
         RM.save_recording n e rm d = (true, d') ->
         exists f, d' !! n = Some f /\ stored_events f = Some evs.
Proof.
  apply (recorded_offsets_sorted
           [Start 100; AddNote "sa" 100; AddNote "re" 600; Stop; AddNote "ga" 700]).
  cbn. repeat constructor; lia.
Defined.

(** ** Playback *)

Lemma event_of_Some item note t :
  event_of item = Some (note, t) -> py_unpack2 item = Some (PyStr note, PyNum t).
Proof.
  unfold event_of. destruct (py_unpack2 item) as [[[] []]|]; try done.
  by intros [= -> ->].
Qed.

Lemma py_iter_truthy recording items :
  py_iter recording = Some items -> items ≠ [] -> py_truthy recording = true.
Proof.
  destruct recording as [| | |s|l|l|d]; try done; cbn; intros [= <-] Hne.
  - by destruct s.
  - by destruct l.
  - by destruct l.
  - by destruct d.
Qed.

Section PlaybackFacts.
Context {St : Type}.
Variable sm : SoundManager.
Variable callback : option (pyval -> St -> St).

Lemma playback_loop_schedule (start_time : Z) (clock : nat -> Z) items evs :
  Forall2 (fun item ev => event_of item = Some ev) items evs ->
  forall k s,
    playback_loop sm callback start_time clock k items s
    = (schedule sm (has_callback callback) start_time clock k evs,
       after_callbacks callback evs s, true).
Proof.
  induction 1 as [|item [note t] items evs Hev _ IH]; intros k s.
  - by destruct callback.
  - cbn [playback_loop schedule]. unfold loop_head.
    rewrite (event_of_Some _ _ _ Hev). cbn [py_num].
    unfold loop_tail. cbn [play_note py_hashable in_sounds].
    rewrite Z.gtb_ltb.
    destruct callback as [cb|] eqn:Hcb; cbn [has_callback after_callbacks] in *.
    + rewrite IH. cbn [foldl fst].
      by destruct (clock k <? start_time + t)%Z.
    + rewrite IH.
      by destruct (clock k <? start_time + t)%Z.
Qed.

Lemma triggered_schedule b start_time clock k evs :
  triggered (schedule sm b start_time clock k evs) = PyStr <$> evs.*1.
Proof.
  revert k. induction evs as [|[note t] evs IH]; intros k; first done.
  cbn [schedule]. rewrite fmap_cons, fmap_cons. cbn [fst].
  destruct (clock k <? start_time + t)%Z, b; cbn; by rewrite IH.
Qed.
End PlaybackFacts.

Lemma playback_trigger_note sm st note live rest (u : MusicUI) :
  playback_trigger sm (Some UI.update_last_note) st (PyStr note) live rest u
  = (PbLoop st live rest,
     [Trigger (PyStr note) (bool_decide (note ∈ sounds sm)); Callback (PyStr note)],
     UI.update_last_note (PyStr note) u).
Proof. done. Qed.

(** The thread, stepped through the items of its loop with nothing else
    going on, does what the schedule says. *)
Lemma loop_steps_run (mk : Z -> env) (i : nat) (st : Z) (clock : nat -> Z) items evs :
  (forall t, now (mk t) = t) ->
  Forall2 (fun item ev => event_of item = Some ev) items evs ->
  forall k live w,
    threads w !! i = Some (PbLoop st live items) ->
    exists w',
      run (loop_steps mk i st clock k evs) w = Some w'
      /\ sound_manager w' = sound_manager w
      /\ recording_manager w' = recording_manager w
      /\ heard w' = heard w ++ schedule (sound_manager w) true st clock k evs
      /\ ui w' = after_callbacks (Some UI.update_last_note) evs (ui w)
      /\ threads w' = <[i := PbDone]> (threads w).
Proof.
  intros Hmk. induction 1 as [|item [note ts] items evs Hev _ IH]; intros k live w Hp.
  - cbn [loop_steps run step mbind option_bind]. unfold thread_step. rewrite Hp. cbn.
    eexists. split; first reflexivity. by rewrite app_nil_r.
  - pose proof (lookup_lt_Some _ _ _ Hp) as Hi.
    cbn [loop_steps run step mbind option_bind]. unfold thread_step at 1. rewrite Hp.
    cbn [playback_step]. unfold loop_head.
    rewrite (event_of_Some _ _ _ Hev). cbn [py_num]. rewrite Hmk, Z.gtb_ltb.
    destruct (clock k <? st + ts)%Z eqn:Hlt.
    + cbn [app run step mbind option_bind]. unfold thread_step at 1.
      cbn [threads with_heard with_ui with_threads sound_manager ui recording_manager].
      rewrite list_lookup_insert_eq by done.
      cbn [playback_step]. rewrite playback_trigger_note.
      match goal with
      | |- context [run _ ?w1] =>
          destruct (IH (S k) live w1) as (w' & Hrun & Hsm & Hrm & Hh & Hu & Hth)
      end.
      { cbn. rewrite list_lookup_insert_eq; first done. by rewrite !length_insert. }
      exists w'. split; first exact Hrun. cbn in Hsm, Hrm, Hh, Hu, Hth.
      rewrite Hsm, Hrm, Hh, Hu, Hth. repeat split.
      * cbn [schedule]. rewrite Hlt. by rewrite <- !app_assoc.
      * by rewrite !list_insert_insert_eq.
    + rewrite playback_trigger_note.
      match goal with
      | |- context [run _ ?w1] =>
          destruct (IH (S k) live w1) as (w' & Hrun & Hsm & Hrm & Hh & Hu & Hth)
      end.
      { cbn. by rewrite list_lookup_insert_eq. }
      exists w'. split; first exact Hrun. cbn in Hsm, Hrm, Hh, Hu, Hth.
      rewrite Hsm, Hrm, Hh, Hu, Hth. repeat split.
      * cbn [schedule]. rewrite Hlt. by rewrite <- !app_assoc.
      * by rewrite !list_insert_insert_eq.
Qed.

(** C2: for a non-empty recording, [playback_recording] starts the thread,
    and the thread runs to the end of the loop doing exactly what the
    schedule says: for each event in the order of the sequence, a sleep of
    [playback_start + offset - now] if that target is still ahead and no
    sleep otherwise, then the trigger of the note, then the callback when
    one was given.  So the notes triggered are the notes of the events, in
    their order, whatever the clock readings are.  This holds of the loop
    run in one go, with any callback, and of the thread that
    [playback_recording] starts in the program (one more thread, which is
    given the callback [update_last_note]), stepped to its end while
    nothing else happens: what is heard then is the schedule, the callbacks
    have been made on the UI, and the thread has come to its end. *)
Theorem playback_in_order {St : Type} (sm : SoundManager)
    (callback : option (pyval -> St -> St)) (clock : nat -> Z) (mk : Z -> env)
    (w : MusicInstrument) (evs : list (string * Z)) (s : St) :
  events_of (current_recording (recording_manager w)) = Some evs ->
  evs ≠ [] ->
  (forall t, now (mk t) = t) ->
  py_truthy (current_recording (recording_manager w)) = true
  /\ playback_thread sm callback clock (current_recording (recording_manager w)) s
     = (schedule sm (has_callback callback) (clock 0%nat) clock 1 evs,
        after_callbacks callback evs s, true)
  /\ triggered (playback_thread sm callback clock
                  (current_recording (recording_manager w)) s).1.1
     = PyStr <$> evs.*1
  /\ threads (playback_recording w) = threads w ++ [PbStart]
  /\ heard (playback_recording w) = heard w
  /\ exists w',
      run (thread_steps mk (length (threads w)) clock evs) (playback_recording w) = Some w'
      /\ heard w' = heard w ++ schedule (sound_manager w) true (clock 0%nat) clock 1 evs
      /\ triggered (schedule (sound_manager w) true (clock 0%nat) clock 1 evs)
         = PyStr <$> evs.*1
      /\ ui w' = after_callbacks (Some UI.update_last_note) evs (ui w)
      /\ threads w' = threads w ++ [PbDone].
Proof.
  unfold events_of, playback_thread. intros Hev Hne Hmk.
  destruct (py_iter (current_recording (recording_manager w))) as [items|] eqn:Hiter;
    last done.
  cbn in Hev. apply mapM_Some in Hev.
  assert (py_truthy (current_recording (recording_manager w)) = true) as Htruthy.
  { apply (py_iter_truthy _ items Hiter). intros ->. by inversion Hev. }
  split; first exact Htruthy.
  rewrite (playback_loop_schedule sm callback _ _ items evs Hev). cbn [fst].
  split; first done. split; first apply triggered_schedule.
  unfold playback_recording. rewrite Htruthy. cbn [negb].
  split; first done. split; first done.
  unfold thread_steps. cbn [run step mbind option_bind]. unfold thread_step at 1.
  cbn [threads with_threads sound_manager recording_manager ui heard].
  rewrite lookup_app_r by done. rewrite Nat.sub_diag. cbn [lookup list_lookup].
  cbn [playback_step]. rewrite Hiter, Hmk.
  match goal with
  | |- context [run _ ?w1] =>
      destruct (loop_steps_run mk (length (threads w)) (clock 0%nat) clock items evs Hmk Hev
                  1 true w1) as (w' & Hrun & _ & _ & Hh & Hu & Hth)
  end.
  { cbn. rewrite list_lookup_insert_eq; first done. rewrite length_app. cbn. lia. }
  exists w'. split; first exact Hrun. cbn in Hh, Hu, Hth.
  rewrite Hh, Hu, Hth, app_nil_r.
  split; first done. split; first apply triggered_schedule. split; first done.
  rewrite list_insert_insert_eq.
  replace (length (threads w)) with (length (threads w) + 0) at 1 by lia.
  by rewrite insert_app_r.
Qed.

Lemma playback_in_order_witness :
  let w := with_recording_manager
             {| current_recording := recording_of [("sa", 0%Z); ("re", 500%Z); ("ga", 1200%Z)];
                recording_start_time := Some 100%Z; is_recording := false |} fresh in
  let clock := fun k : nat => match k with 0 | 1 => 1000%Z | 2 => 1700%Z | _ => 1800%Z end in
  playback_thread {| sounds := {["sa"; "re"]} |} (Some UI.update_last_note) clock
    (current_recording (recording_manager w)) UI.init
  = ([Trigger (PyStr "sa") true; Callback (PyStr "sa");
      Trigger (PyStr "re") true; Callback (PyStr "re");
      Sleep 400; Trigger (PyStr "ga") false; Callback (PyStr "ga")],
     UI.update_last_note (PyStr "ga") UI.init, true)
  /\ exists w',
      run (thread_steps at_time 0 clock [("sa", 0%Z); ("re", 500%Z); ("ga", 1200%Z)])
        (playback_recording w) = Some w'
      /\ heard w'
         = [Trigger (PyStr "sa") true; Callback (PyStr "sa");
            Trigger (PyStr "re") true; Callback (PyStr "re");
            Sleep 400; Trigger (PyStr "ga") false; Callback (PyStr "ga")]
      /\ threads w' = [PbDone].
Proof.
  intros w clock.
  destruct (playback_in_order {| sounds := {["sa"; "re"]} |} (Some UI.update_last_note) clock
              at_time w [("sa", 0%Z); ("re", 500%Z); ("ga", 1200%Z)] UI.init)
    as (_ & Halone & _ & _ & _ & w' & Hrun & Hh & _ & _ & Hth);
    [reflexivity | discriminate | reflexivity |].
  split.
  - rewrite Halone. vm_compute. reflexivity.
  - exists w'. split; first exact Hrun. split.
    + rewrite Hh. vm_compute. reflexivity.
    + exact Hth.
Defined.

(** ** What the handlers keep *)

Lemma update_last_note_frame note u :
  current_mode (UI.update_last_note note u) = current_mode u
  /\ status_message (UI.update_last_note note u) = status_message u
  /\ available_recordings (UI.update_last_note note u) = available_recordings u.
Proof.
  destruct note as [| | |n| | |]; try done.
  unfold UI.update_last_note. by destruct (UI.display_of n _).
Qed.

Lemma playback_step_frame sm t rec p u :
  let u' := (playback_step sm (Some UI.update_last_note) t rec p u).2 in
  current_mode u' = current_mode u
  /\ status_message u' = status_message u
  /\ available_recordings u' = available_recordings u.
Proof.
  assert (forall st note live rest,
    let u' := (playback_trigger sm (Some UI.update_last_note) st note live rest u).2 in
    current_mode u' = current_mode u
    /\ status_message u' = status_message u
    /\ available_recordings u' = available_recordings u) as Htrig.
  { intros st note live rest. unfold playback_trigger, loop_tail.
    destruct (play_note sm note); last done. apply update_last_note_frame. }
  destruct p as [|st live [|item rest]|st note live rest| |]; cbn; try done.
  - by destruct (py_iter rec).
  - by destruct (loop_head st t item) as [[note [d|]]|].
Qed.

Lemma thread_step_frame e i w :
  recording_manager (thread_step e i w) = recording_manager w
  /\ sound_manager (thread_step e i w) = sound_manager w
  /\ selection_mode_recordings (thread_step e i w) = selection_mode_recordings w
  /\ disk (thread_step e i w) = disk w
  /\ current_mode (ui (thread_step e i w)) = current_mode (ui w)
  /\ available_recordings (ui (thread_step e i w)) = available_recordings (ui w).
Proof.
  unfold thread_step. destruct (threads w !! i) as [p|]; last done.
  pose proof (playback_step_frame (sound_manager w) (now e)
                (current_recording (recording_manager w)) p (ui w)) as Hf.
  destruct (playback_step _ _ _ _ p (ui w)) as [[p' effs] u']. cbn in *.
  by destruct Hf as (? & _ & ?).
Qed.

Lemma lookup_key_display key note_id display_note :
  lookup_key key UI.key_to_note = Some (note_id, display_note) ->
  UI.display_of note_id (UI.key_to_note.*2) = Some display_note.
Proof.
  unfold UI.key_to_note. cbn [lookup_key].
  repeat (match goal with
          | |- context [String.eqb ?a key] => destruct (String.eqb a key)
          end; [by intros [= <- <-]|]).
  done.
Qed.

Lemma session_inv_init samples files : session_inv (init samples files).
Proof. repeat split; try done; cbn; intros; discriminate. Qed.

Lemma session_inv_step e ev w :
  now e ≠ 0%Z -> session_inv w -> exists w', step e ev w = Some w' /\ session_inv w'.
Proof.
  intros Hnow (Hmode & Htake & Hsel).
  destruct ev as [name| | |digit|i]; cbn [step].
  - (* a note key *)
    unfold _on_note_key.
    destruct (lookup_key (lower name) UI.key_to_note) as [[note_id display_note]|];
      last by eexists.
    cbn [play_note py_hashable mbind option_bind].
    cbn [recording_manager with_ui with_heard].
    destruct (is_recording (recording_manager w)) eqn:Hon.
    + destruct (Htake eq_refl) as (s & l & Hs & Hst & Hcr).
      unfold RM.add_note. rewrite Hon, Hst, Hcr. cbn.
      destruct (Z.eqb_spec s 0) as [|_]; first done. cbn.
      eexists. split; first reflexivity.
      pose proof (update_last_note_frame (PyStr note_id) (ui w)) as (Hm & _ & Hav).
      split; [|split]; cbn.
      * by rewrite Hm, <- Hmode.
      * intros _. by eexists s, _.
      * rewrite Hm, Hav. exact Hsel.
    + eexists. split; first reflexivity.
      pose proof (update_last_note_frame (PyStr note_id) (ui w)) as (Hm & _ & Hav).
      split; [|split]; cbn.
      * by rewrite Hm, Hon.
      * by rewrite Hon.
      * rewrite Hm, Hav. exact Hsel.
  - (* escape *)
    unfold _on_escape.
    destruct (current_mode (ui w)) eqn:Hm;
      [by eexists; split; [reflexivity|repeat split; rewrite ?Hm in *; tauto]|..];
      (destruct (is_recording (recording_manager w)) eqn:Hon;
       [destruct (Htake eq_refl) as (s & l & Hs & Hst & Hcr);
        unfold RM.stop_recording; rewrite Hcr; cbn
       |cbn];
       eexists; (split; first reflexivity);
       repeat split; cbn; rewrite ?Hon; intros; discriminate).
  - (* space *)
    unfold _on_space.
    destruct (current_mode (ui w)) eqn:Hm;
      try (eexists; split; [reflexivity|repeat split; rewrite ?Hm in *; tauto]).
    destruct (Htake (proj2 Hmode eq_refl)) as (s & l & Hs & Hst & Hcr).
    unfold RM.stop_recording. rewrite Hcr. cbn.
    eexists. split; first reflexivity.
    repeat split; cbn; intros; discriminate.
  - (* a number key *)
    eexists. split; first reflexivity.
    destruct (hooked_digit digit); last done.
    unfold _on_number_key.
    destruct (current_mode (ui w)) eqn:Hm;
      try (repeat split; rewrite ?Hm in *; tauto).
    + (* menu *)
      assert (is_recording (recording_manager w) = false) as Hoff.
      { destruct (is_recording (recording_manager w)); last done.
        by specialize (proj1 Hmode eq_refl). }
      unfold _handle_menu_selection.
      destruct digit as [|[|[|[|[|[|[|digit]]]]]]].
      * repeat split; rewrite ?Hm in *; tauto.
      * repeat split; cbn; rewrite ?Hoff; intros; discriminate.
      * repeat split; cbn; try done. intros _. by eexists (now e), [].
      * unfold playback_recording. cbn.
        destruct (py_truthy (current_recording (recording_manager w))); cbn;
          repeat split; cbn; rewrite ?Hoff, ?Hm; intros; discriminate.
      * destruct (py_truthy (current_recording (recording_manager w))); cbn.
        -- destruct (RM.save_recording _ e _ _) as [[] d]; cbn;
             repeat split; cbn; rewrite ?Hoff, ?Hm; intros; discriminate.
        -- repeat split; cbn; rewrite ?Hoff, ?Hm; intros; discriminate.
      * destruct (negb (bool_decide (RM.get_available_recordings (disk w) = []))); cbn.
        -- repeat split; cbn; rewrite ?Hoff; try done; intros; discriminate.
        -- repeat split; cbn; rewrite ?Hoff, ?Hm; intros; discriminate.
      * repeat split; cbn; rewrite ?Hoff, ?Hm; intros; discriminate.
      * repeat split; rewrite ?Hm in *; tauto.
    + (* select_recording *)
      assert (is_recording (recording_manager w) = false) as Hoff.
      { destruct (is_recording (recording_manager w)); last done.
        by specialize (proj1 Hmode eq_refl). }
      unfold _handle_recording_selection.
      destruct (_ && _); last first.
      { repeat split; cbn; rewrite ?Hoff, ?Hm; try done; intros; try discriminate;
          by apply Hsel. }
      destruct (selection_mode_recordings w !! _) as [selected|]; last first.
      { repeat split; rewrite ?Hm in *; tauto. }
      unfold RM.load_recording.
      assert (forall w0, is_recording (recording_manager w0) = false ->
                current_mode (ui w0) = M_playback ->
                session_inv (playback_recording w0)) as Hplay.
      { intros w0 Hoff0 Hm0. unfold playback_recording.
        destruct (negb _); repeat split; cbn; rewrite ?Hoff0, ?Hm0; intros; discriminate. }
      assert (session_inv (set_status "Failed to load recording" w)) as Hfail.
      { repeat split; cbn; rewrite ?Hoff, ?Hm; try done; intros; try discriminate;
          by apply Hsel. }
      destruct (disk w !! selected) as [[j|]|]; try done;
        destruct (io_ok e); try done.
      destruct (of_json j); try done.
      by apply Hplay.
  - (* a playback thread moves *)
    eexists. split; first reflexivity.
    destruct (thread_step_frame e i w) as (Hrm & _ & Hs & _ & Hm & Hav).
    unfold session_inv. by rewrite Hrm, Hs, Hm, Hav.
Qed.

Lemma reachable_session_inv w : reachable w -> session_inv w.
Proof.
  induction 1 as [samples files|w e ev w' _ IH Hnow Hstep].
  - apply session_inv_init.
  - destruct (session_inv_step e ev w Hnow IH) as (w'' & Hstep' & Hinv).
    rewrite Hstep in Hstep'. by injection Hstep' as ->.
Qed.

(** ** Note keys *)

Lemma update_last_note_set_mode note m u :
  UI.update_last_note note (UI.set_mode m u) = UI.set_mode m (UI.update_last_note note u).
Proof.
  destruct note as [| | |n| | |]; try done.
  unfold UI.update_last_note. by destruct (UI.display_of n _).
Qed.

Lemma update_last_note_catalog key note_id display_note u :
  lookup_key key UI.key_to_note = Some (note_id, display_note) ->
  last_played_note (UI.update_last_note (PyStr note_id) u)
  = display_note +:+ " (" +:+ note_id +:+ ")".
Proof.
  intros Hkey. unfold UI.update_last_note.
  by rewrite (lookup_key_display _ _ _ Hkey).
Qed.

Lemma reachable_recording_from_100 : reachable recording_from_100.
Proof.
  apply (reachable_step fresh (at_time 100) (NumberKey 2));
    [apply reachable_init | discriminate | reflexivity].
Qed.

(** C10: in every state the program can reach, and so in every mode, the
    menu included, a press of a note key calls [play_note] for its note,
    sets [last_played_note] to the display name of the note, leaves the
    mode as it is, and appends the note (at its offset from the start of
    the take) to the buffer exactly when [is_recording] is set; the handler
    does not read the mode: with another mode in place it does the same. *)
Theorem note_key_in_any_mode (w : MusicInstrument) (e : env)
    (name note_id display_note : string) :
  reachable w ->
  lookup_key (lower name) UI.key_to_note = Some (note_id, display_note) ->
  exists w',
    _on_note_key e name w = Some w'
    /\ heard w'
       = heard w ++ [Trigger (PyStr note_id) (bool_decide (note_id ∈ sounds (sound_manager w)))]
    /\ last_played_note (ui w') = display_note +:+ " (" +:+ note_id +:+ ")"
    /\ current_mode (ui w') = current_mode (ui w)
    /\ (if is_recording (recording_manager w) then
          exists s l,
            recording_start_time (recording_manager w) = Some s
            /\ current_recording (recording_manager w) = PyList l
            /\ recording_manager w'
               = {| current_recording := PyList (l ++ [note_event (note_id, (now e - s)%Z)]);
                    recording_start_time := Some s;
                    is_recording := true |}
        else recording_manager w' = recording_manager w)
    /\ forall m, _on_note_key e name (set_mode m w) = Some (set_mode m w').
Proof.
  intros Hreach Hkey.
  destruct (reachable_session_inv w Hreach) as (_ & Htake & _).
  pose proof (update_last_note_frame (PyStr note_id) (ui w)) as (Hm & _ & _).
  pose proof (update_last_note_catalog _ _ _ (ui w) Hkey) as Hlast.
  unfold _on_note_key. rewrite Hkey.
  cbn [play_note py_hashable mbind option_bind in_sounds].
  cbn [recording_manager with_ui with_heard set_mode ui].
  destruct (is_recording (recording_manager w)) eqn:Hon.
  - destruct (Htake eq_refl) as (s & l & Hs & Hst & Hcr).
    unfold RM.add_note. rewrite Hon, Hst, Hcr. cbn [RM.start_time_truthy andb].
    destruct (Z.eqb_spec s 0) as [|_]; first done. cbn [negb mbind option_bind].
    eexists. split; first reflexivity. cbn.
    repeat split; try done.
    + by eexists s, l.
    + intros m. by rewrite update_last_note_set_mode.
  - eexists. split; first reflexivity. cbn.
    repeat split; try done.
    intros m. by rewrite update_last_note_set_mode.
Qed.

Lemma note_key_in_any_mode_witness :
  exists w',
    _on_note_key (at_time 350) "S" recording_from_100 = Some w'
    /\ heard w' = [Trigger (PyStr "re") true]
    /\ last_played_note (ui w') = "Re (re)"
    /\ current_mode (ui w') = M_record
    /\ current_recording (recording_manager w') = recording_of [("re", 250%Z)]
    /\ _on_note_key (at_time 350) "S" (set_mode M_menu recording_from_100)
       = Some (set_mode M_menu w').
Proof.
  destruct (note_key_in_any_mode recording_from_100 (at_time 350) "S" "re" "Re")
    as (w' & Hrun & Hheard & Hlast & Hmode & Hrec & Hindep);
    [apply reachable_recording_from_100 | reflexivity |].
  exists w'. destruct Hrec as (s & l & Hs & Hl & Hrm).
  injection Hs as <-. injection Hl as <-.
  repeat split; try assumption.
  - by rewrite Hrm.
  - apply Hindep.
Defined.

(** ** Escape *)

(** C7: the code differs from the claim where the claim says that the
    recording in progress is discarded.  The record panel announces "Press
    ESC to cancel" and [_on_escape] sets the status "Recording cancelled",
    but all it does to the take is to lower the flag.  After '2', a note key
    and escape, the buffer still holds the note (and the status that says
    "cancelled" is already overwritten); '3' then plays the take that was
    cancelled, and '4' writes it to a file. *)
Lemma escape_keeps_the_take :
  let keys := [(at_time 100, NumberKey 2); (at_time 350, NoteKey "a");
               (at_time 400, EscapeKey)] in
  (fun w => (current_mode (ui w), status_message (ui w),
             is_recording (recording_manager w),
             current_recording (recording_manager w)))
    <$> run keys fresh
  = Some (M_menu, "Returned to main menu", false, recording_of [("sa", 250%Z)])
  /\ (fun w => (current_mode (ui w), heard w, threads w))
       <$> run (keys ++ [(at_time 500, NumberKey 3); (at_time 600, ThreadStep 0);
                         (at_time 600, ThreadStep 0); (at_time 850, ThreadStep 0);
                         (at_time 850, ThreadStep 0)]) fresh
     = Some (M_playback,
             [Trigger (PyStr "sa") true; Sleep 250; Trigger (PyStr "sa") true;
              Callback (PyStr "sa")],
             [PbDone])
  /\ (fun w => (status_message (ui w), disk w !! "recording_20240101_120000"))
       <$> run (keys ++ [(at_time 500, NumberKey 4)]) fresh
     = Some ("Recording saved as recording_20240101_120000.json",
             Some (Doc (JObj [("timestamp", JStr "2024-01-01T12:00:00");
                              ("notes", JArr [JArr [JStr "sa"; JNum 250]])]))).
Proof. repeat split; vm_compute; reflexivity. Qed.

(** ** Choosing a recording *)

(** C8, as stated, fails when the chosen file cannot be loaded: with one
    file that is not JSON, '5' then '1' (in range) leaves the mode at
    "select_recording" and starts no playback. *)
Lemma selection_in_range_may_not_play :
  (fun w => (selection_mode_recordings w, current_mode (ui w), status_message (ui w),
             threads w))
    <$> run [(at_time 10, NumberKey 5); (at_time 20, NumberKey 1)] with_bad_file
  = Some (["a"], M_select_recording, "Failed to load recording", []).
Proof. reflexivity. Qed.

Lemma reachable_selecting : reachable selecting.
Proof.
  apply (reachable_step with_good_file (at_time 10) (NumberKey 5));
    [apply reachable_init | discriminate | reflexivity].
Qed.

(** C8, amended: in the mode "select_recording" the list the digit indexes
    is the list of available recordings the UI shows.  A digit outside
    [1 .. len] only sets the status "Invalid selection".  A digit inside
    picks the name at that place and tries to load it: if the load succeeds
    the program goes to "playback" and starts a playback of the loaded
    buffer (a thread, when the buffer is not empty, which enters its loop
    over the loaded buffer when it moves next; the threads that were
    there keep the list they were iterating over); if the load fails, it
    only sets the status "Failed to load recording" and stays in
    "select_recording". *)
Theorem recording_selection (w : MusicInstrument) (e : env) (digit : nat) :
  reachable w ->
  current_mode (ui w) = M_select_recording ->
  available_recordings (ui w) = Some (selection_mode_recordings w)
  /\ ((digit < 1 \/ length (selection_mode_recordings w) < digit) ->
      _on_number_key e digit w = set_status "Invalid selection" w)
  /\ (forall name,
        1 <= digit ->
        selection_mode_recordings w !! (digit - 1) = Some name ->
        match RM.load_recording name e (recording_manager w) (disk w) with
        | (true, rm) =>
            _on_number_key e digit w
            = playback_recording
                (set_status ("Loaded and playing: " +:+ name)
                   (set_mode M_playback (rebound_buffer rm w)))
            /\ current_mode (ui (_on_number_key e digit w)) = M_playback
            /\ recording_manager (_on_number_key e digit w) = rm
            /\ threads (_on_number_key e digit w)
               = (detach <$> threads w)
                 ++ (if py_truthy (current_recording rm) then [PbStart] else [])
            /\ (py_truthy (current_recording rm) = true ->
                forall e',
                  threads (thread_step e' (length (threads w)) (_on_number_key e digit w))
                    !! length (threads w)
                  = Some (match py_iter (current_recording rm) with
                          | Some items => PbLoop (now e') true items
                          | None => PbFailed
                          end))
        | (false, _) =>
            _on_number_key e digit w = set_status "Failed to load recording" w
        end).
Proof.
  intros Hreach Hm.
  destruct (reachable_session_inv w Hreach) as (_ & _ & Hsel).
  split; first by apply Hsel.
  unfold _on_number_key, _handle_recording_selection. rewrite Hm.
  split.
  - intros Hout.
    destruct (0 <=? Z.of_nat digit - 1)%Z eqn:Hlo; cbn [andb]; last done.
    destruct (Z.of_nat digit - 1 <? Z.of_nat (length (selection_mode_recordings w)))%Z
      eqn:Hhi; last done.
    apply Z.leb_le in Hlo. apply Z.ltb_lt in Hhi. lia.
  - intros name Hdigit Hname.
    pose proof (lookup_lt_Some _ _ _ Hname) as Hlt.
    destruct (Z.leb_spec 0 (Z.of_nat digit - 1)) as [_|]; last lia.
    destruct (Z.ltb_spec (Z.of_nat digit - 1)
                (Z.of_nat (length (selection_mode_recordings w)))) as [_|]; last lia.
    cbn [andb].
    replace (Z.to_nat (Z.of_nat digit - 1)) with (digit - 1) by lia.
    rewrite Hname.
    destruct (RM.load_recording name e (recording_manager w) (disk w)) as [[] rm];
      last done.
    split; first done.
    unfold playback_recording. cbn.
    destruct (py_truthy (current_recording rm)); cbn; rewrite ?app_nil_r;
      repeat split; try done.
    intros _ e'. unfold thread_step. cbn.
    rewrite lookup_app_r by (by rewrite length_fmap).
    rewrite length_fmap, Nat.sub_diag. cbn.
    assert (length (threads w) < length ((detach <$> threads w) ++ [PbStart])) as Hlen
      by (rewrite length_app, length_fmap; cbn; lia).
    destruct (py_iter (current_recording rm)); cbn;
      by rewrite list_lookup_insert_eq.
Qed.

Lemma recording_selection_witness :
  _on_number_key (at_time 20) 3 selecting = set_status "Invalid selection" selecting
  /\ current_mode (ui (_on_number_key (at_time 20) 1 selecting)) = M_playback
  /\ threads (_on_number_key (at_time 20) 1 selecting) = [PbStart]
  /\ threads (thread_step (at_time 30) 0 (_on_number_key (at_time 20) 1 selecting)) !! 0
     = Some (PbLoop 30 true [PyList [PyStr "sa"; PyNum 0]; PyList [PyStr "re"; PyNum 1000]]).
Proof.
  split.
  - apply (recording_selection selecting (at_time 20) 3);
      [apply reachable_selecting | reflexivity | right; vm_compute; lia].
  - destruct (recording_selection selecting (at_time 20) 1)
      as (_ & _ & Hin); [apply reachable_selecting | reflexivity |].
    specialize (Hin "a" (le_n 1) eq_refl).
    destruct Hin as (_ & Hmode & _ & Hthreads & Hnext).
    split; [exact Hmode | split; [exact Hthreads | exact (Hnext eq_refl (at_time 30))]].
Defined.

(** ** Starting a take *)

Lemma run_app evs1 evs2 w : run (evs1 ++ evs2) w = run evs1 w ≫= run evs2.
Proof.
  revert w. induction evs1 as [|[e ev] evs1 IH]; intros w; first done.
  cbn [run app]. destruct (step e ev w) as [w1|]; last done. cbn. apply IH.
Qed.

Lemma note_keys_during_take presses w s l :
  s ≠ 0%Z ->
  recording_manager w
  = {| current_recording := PyList l; recording_start_time := Some s; is_recording := true |} ->
  exists w',
    run (press <$> presses) w = Some w'
    /\ recording_manager w'
       = {| current_recording := PyList (l ++ (note_event <$> take_of s presses));
            recording_start_time := Some s; is_recording := true |}
    /\ current_mode (ui w') = current_mode (ui w)
    /\ disk w' = disk w.
Proof.
  intros Hs. revert w l. induction presses as [|[e name] presses IH]; intros w l Hrm.
  - exists w. cbn. by rewrite app_nil_r.
  - cbn [fmap list_fmap press run step fst snd take_of]. unfold _on_note_key.
    destruct (lookup_key (lower name) UI.key_to_note) as [[note_id display_note]|].
    + cbn [play_note py_hashable mbind option_bind].
      cbn [recording_manager with_ui with_heard]. rewrite Hrm.
      unfold RM.add_note. cbn [is_recording recording_start_time current_recording
                               RM.start_time_truthy andb].
      destruct (Z.eqb_spec s 0) as [|_]; first done. cbn [negb mbind option_bind].
      match goal with
      | |- context [run _ ?w1] =>
          destruct (IH w1 (l ++ [note_event (note_id, (now e - s)%Z)]))
            as (w' & Hrun & Hrm' & Hmode & Hdisk); first reflexivity
      end.
      exists w'. split; first exact Hrun.
      split; first by rewrite Hrm', <- app_assoc.
      split; last done. rewrite Hmode. cbn.
      apply update_last_note_frame.
    + cbn [mbind option_bind]. by apply IH.
Qed.

(** C4, as stated, fails where it lets '2' be chosen twice in a row: the
    second '2' arrives in the mode "record", where number keys do nothing,
    so the take goes on and the note played before it is saved with the
    rest. *)
Lemma second_select_is_ignored :
  (fun w => disk w !! "recording_20240101_120000" ≫= stored_events)
    <$> run [(at_time 100, NumberKey 2); (at_time 110, NoteKey "a");
             (at_time 120, NumberKey 2); (at_time 130, NoteKey "s");
             (at_time 140, SpaceKey); (at_time 150, NumberKey 4)] fresh
  = Some (Some [("sa", 10%Z); ("re", 30%Z)]).
Proof. reflexivity. Qed.

(** C4, amended: [start_recording] always empties the buffer, takes the
    clock reading as start time and raises the flag, also when a take is
    under way.  A '2' pressed in the mode "record" is not dispatched, so it
    starts nothing.  A '2' pressed in the menu starts a new take whatever the
    buffer held before, and after the note keys of this take, the stop key
    and '4', the buffer and the saved file hold exactly the notes of this
    take: nothing of an earlier one.  The clock does not read 0 at the
    start. *)
Theorem record_starts_fresh_take (w : MusicInstrument) (e0 e1 e2 : env)
    (presses : list (env * string)) :
  current_mode (ui w) = M_menu ->
  now e0 ≠ 0%Z ->
  (forall t rm,
      RM.start_recording t rm
      = {| current_recording := PyList []; recording_start_time := Some t;
           is_recording := true |})
  /\ (forall e w0, current_mode (ui w0) = M_record -> _on_number_key e 2 w0 = w0)
  /\ recording_manager (_on_number_key e0 2 w)
     = {| current_recording := PyList []; recording_start_time := Some (now e0);
          is_recording := true |}
  /\ current_mode (ui (_on_number_key e0 2 w)) = M_record
  /\ exists w',
      run ((e0, NumberKey 2) :: (press <$> presses) ++ [(e1, SpaceKey); (e2, NumberKey 4)]) w
      = Some w'
      /\ current_recording (recording_manager w') = recording_of (take_of (now e0) presses)
      /\ (take_of (now e0) presses ≠ [] ->
          io_ok e2 = true ->
          disk w' !! ("recording_" +:+ strftime_now e2) ≫= stored_events
          = Some (take_of (now e0) presses)).
Proof.
  intros Hmenu Hnow.
  split; first done.
  split; first by (intros e w0 Hm; unfold _on_number_key; rewrite Hm).
  assert (recording_manager (_on_number_key e0 2 w)
          = {| current_recording := PyList []; recording_start_time := Some (now e0);
               is_recording := true |}) as Hrm
    by (unfold _on_number_key; by rewrite Hmenu).
  assert (current_mode (ui (_on_number_key e0 2 w)) = M_record) as Hrec
    by (unfold _on_number_key; by rewrite Hmenu).
  split; first exact Hrm. split; first exact Hrec.
  destruct (note_keys_during_take presses _ _ _ Hnow Hrm) as (w1 & Hrun & Hrm1 & Hm1 & _).
  cbn [run step mbind option_bind hooked_digit Nat.leb andb]. rewrite run_app, Hrun.
  cbn [mbind option_bind run step hooked_digit Nat.leb andb]. unfold _on_space.
  rewrite Hm1, Hrec, Hrm1. cbn [RM.stop_recording py_len current_recording app
                              recording_start_time mbind option_bind].
  unfold _on_number_key, _handle_menu_selection. cbn.
  destruct (take_of (now e0) presses) as [|ev take] eqn:Htake.
  - eexists. split; first reflexivity. by split.
  - rewrite fmap_cons. rewrite bool_decide_eq_false_2 by done. cbn [negb].
    unfold RM.save_recording. cbn [current_recording py_truthy].
    rewrite bool_decide_eq_false_2 by done. cbn [negb].
    destruct (io_ok e2).
    + eexists. split; first reflexivity. split; first done.
      intros _ _. cbn. rewrite lookup_insert_eq. cbn [mbind option_bind].
      apply (stored_events_saved _ (ev :: take)).
    + eexists. split; first reflexivity. split; first done. done.
Qed.

Lemma record_starts_fresh_take_witness :
  exists w',
    run [(at_time 900, NumberKey 2); (at_time 910, NoteKey "d"); (at_time 950, NoteKey "x");
         (at_time 990, NoteKey "K"); (at_time 1000, SpaceKey); (at_time 1100, NumberKey 4)]
      (set_mode M_menu
         (with_recording_manager
            {| current_recording := recording_of [("sa", 10%Z); ("re", 30%Z)];
               recording_start_time := Some 100%Z; is_recording := false |} fresh))
    = Some w'
    /\ current_recording (recording_manager w')
       = recording_of [("ga", 10%Z); ("sa_high", 90%Z)]
    /\ disk w' !! "recording_20240101_120000" ≫= stored_events
       = Some [("ga", 10%Z); ("sa_high", 90%Z)].
Proof.
  destruct (record_starts_fresh_take
              (set_mode M_menu
                 (with_recording_manager
                    {| current_recording := recording_of [("sa", 10%Z); ("re", 30%Z)];
                       recording_start_time := Some 100%Z; is_recording := false |} fresh))
              (at_time 900) (at_time 1000) (at_time 1100)
              [(at_time 910, "d"); (at_time 950, "x"); (at_time 990, "K")])
    as (_ & _ & _ & _ & w' & Hrun & Hcr & Hdisk); [reflexivity | discriminate |].
  exists w'. split; first exact Hrun. split; first exact Hcr.
  apply Hdisk; [discriminate | reflexivity].
Defined.

(** ** Playback threads and key events *)


















(** * Further properties of the code *)

(** ** What a step can change *)

(** Of the files, a step writes at most the one that '4' saves; of the exit
    flag, a step lowers it at most by '6' in the menu; the samples stay. *)
Lemma step_frame e ev w w' :
  step e ev w = Some w' ->
  sound_manager w' = sound_manager w
  /\ (running w' = running w
      \/ (ev = NumberKey 6 /\ current_mode (ui w) = M_menu /\ running w' = false))
  /\ (disk w' = disk w
      \/ (ev = NumberKey 4
          /\ current_mode (ui w) = M_menu
          /\ io_ok e = true
          /\ py_truthy (current_recording (recording_manager w)) = true
          /\ disk w'
             = <["recording_" +:+ strftime_now e :=
                   Doc (to_json (PyDict [("timestamp", PyStr (isoformat_now e));
                                         ("notes", current_recording (recording_manager w))]))]>
                 (disk w))).
Proof.
  intros Hstep. destruct ev as [name| | |digit|j]; cbn in Hstep.
  - unfold _on_note_key in Hstep.
    destruct (lookup_key _ _) as [[note_id display_note]|];
      last (injection Hstep as <-; frame_solve).
    cbn in Hstep. destruct (is_recording _).
    + destruct (RM.add_note _ _ _); last done. injection Hstep as <-. frame_solve.
    + injection Hstep as <-. frame_solve.
  - unfold _on_escape in Hstep.
    destruct (current_mode _); [injection Hstep as <-; frame_solve|..];
      (destruct (is_recording _); cbn in Hstep;
       [destruct (py_len _); last done|]; injection Hstep as <-; frame_solve).
  - unfold _on_space in Hstep.
    destruct (current_mode _); try (injection Hstep as <-; frame_solve).
    cbn in Hstep. destruct (py_len _); last done. injection Hstep as <-. frame_solve.
  - injection Hstep as <-. destruct (hooked_digit digit); last frame_solve.
    unfold _on_number_key.
    destruct (current_mode (ui w)) eqn:Hm; try frame_solve.
    + unfold _handle_menu_selection.
      destruct digit as [|[|[|[|[|[|[|digit]]]]]]]; try frame_solve.
      * destruct (py_truthy (current_recording (recording_manager w))) eqn:Htruthy;
          last frame_solve.
        unfold playback_recording. cbn. rewrite Htruthy. frame_solve.
      * destruct (py_truthy (current_recording (recording_manager w))) eqn:Htruthy;
          last frame_solve.
        unfold RM.save_recording. rewrite Htruthy. cbn [negb].
        destruct (io_ok e); frame_solve.
      * destruct (negb _); frame_solve.
    + unfold _handle_recording_selection.
      destruct (_ && _); last frame_solve.
      destruct (_ !! _) as [selected|]; last frame_solve.
      destruct (RM.load_recording _ _ _ _) as [[] rm]; last frame_solve.
      unfold playback_recording. cbn. destruct (negb _); frame_solve.
  - injection Hstep as <-.
    destruct (thread_step_frame e j w) as (_ & Hsm & _ & Hdisk & _).
    split; first done. split; last by left.
    left. unfold thread_step. destruct (threads w !! j); last done.
    by destruct (playback_step _ _ _ _ _) as [[? ?] ?].
Qed.

(** X1. The handlers that call [append] and [len] on the buffer (those of
    the note keys, of escape and of the stop key) raise nothing in a state
    the program can reach: there [append] always finds a list and [len] a
    sized value, also after a file was loaded whose ['notes'] is no list
    (the flag is down then, and '2' binds the buffer to a new list before it
    is raised).  In other states they can raise: the stop key in the mode
    "record" raises whenever the buffer has no length.  (The playback
    threads are another matter: a thread can die of an exception.) *)
Theorem no_handler_raises (w : MusicInstrument) (e : env) (name : string) :
  reachable w ->
  is_Some (_on_note_key e name w)
  /\ is_Some (_on_escape w)
  /\ is_Some (_on_space w)
  /\ forall w0,
       current_mode (ui w0) = M_record ->
       py_len (current_recording (recording_manager w0)) = None ->
       _on_space w0 = None.
Proof.
  intros Hreach.
  destruct (reachable_session_inv w Hreach) as (Hmode & Htake & _).
  split; [|split; [|split]].
  - unfold _on_note_key.
    destruct (lookup_key _ _) as [[note_id display_note]|]; last done.
    cbn. destruct (is_recording (recording_manager w)) eqn:Hon; last done.
    destruct (Htake eq_refl) as (s & l & _ & Hst & Hcr).
    unfold RM.add_note. rewrite Hon, Hst, Hcr. cbn.
    by destruct (negb (s =? 0)%Z).
  - unfold _on_escape.
    destruct (current_mode (ui w)); try done;
      (destruct (is_recording (recording_manager w)) eqn:Hon; last done;
       destruct (Htake eq_refl) as (s & l & _ & Hst & Hcr);
       unfold RM.stop_recording; by rewrite Hcr).
  - unfold _on_space.
    destruct (current_mode (ui w)) eqn:Hm; try done.
    destruct (Htake (proj2 Hmode eq_refl)) as (s & l & _ & Hst & Hcr).
    unfold RM.stop_recording. by rewrite Hcr.
  - intros w0 Hm Hlen. unfold _on_space, RM.stop_recording. by rewrite Hm, Hlen.
Qed.

Lemma no_handler_raises_witness :
  current_recording (recording_manager odd_loaded) = PyNum 5
  /\ is_Some (_on_note_key (at_time 30) "a" odd_loaded)
  /\ is_Some (_on_escape odd_loaded)
  /\ is_Some (_on_space odd_loaded).
Proof.
  split; first by vm_compute.
  destruct (no_handler_raises odd_loaded (at_time 30) "a") as (Hnote & Hesc & Hspace & _).
  - apply (reachable_step (_on_number_key (at_time 10) 5 with_odd_file)
             (at_time 20) (NumberKey 1)); [|discriminate|reflexivity].
    apply (reachable_step with_odd_file (at_time 10) (NumberKey 5));
      [apply reachable_init | discriminate | reflexivity].
  - by repeat split.
Defined.

Lemma run_preserves {P : MusicInstrument -> Prop} sched :
  (forall e ev w w', step e ev w = Some w' -> P w -> P w') ->
  forall w w', run sched w = Some w' -> P w -> P w'.
Proof.
  intros Hstep. induction sched as [|[e ev] sched IH]; intros w w' Hrun HP.
  - by injection Hrun as <-.
  - cbn in Hrun. destruct (step e ev w) as [w1|] eqn:H1; last done.
    cbn in Hrun. eapply IH; first exact Hrun. by eapply Hstep.
Qed.

(** X2. Files of [recordings/] are never deleted, and the only step that
    writes one is '4' in the menu with a non-empty buffer: it writes the
    file named after the current time and leaves every other file as it
    is.  Over any run, a name that was there is still there. *)
Theorem only_save_writes (w w' : MusicInstrument) (sched : list (env * event)) :
  run sched w = Some w' ->
  (forall n, is_Some (disk w !! n) -> is_Some (disk w' !! n))
  /\ (forall e ev w1 w2,
        step e ev w1 = Some w2 ->
        disk w2 ≠ disk w1 ->
        ev = NumberKey 4
        /\ current_mode (ui w1) = M_menu
        /\ py_truthy (current_recording (recording_manager w1)) = true
        /\ forall n, n ≠ "recording_" +:+ strftime_now e -> disk w2 !! n = disk w1 !! n).
Proof.
  intros Hrun. split.
  - intros n Hn. revert Hn.
    apply (run_preserves (P := fun w0 => is_Some (disk w0 !! n)) sched); last done.
    clear. intros e ev w w' Hstep Hn.
    destruct (step_frame e ev w w' Hstep) as (_ & _ & [->|(_ & _ & _ & _ & ->)]);
      first done.
    destruct (decide ("recording_" +:+ strftime_now e = n)) as [<-|Hne].
    + by rewrite lookup_insert_eq.
    + by rewrite lookup_insert_ne.
  - intros e ev w1 w2 Hstep Hch.
    destruct (step_frame e ev w1 w2 Hstep) as (_ & _ & [?|(-> & Hm & _ & Ht & Hd)]);
      first done.
    repeat split; try done. intros n Hn. rewrite Hd. by rewrite lookup_insert_ne.
Qed.

Lemma only_save_writes_witness :
  is_Some (disk playing !! "a").
Proof.
  apply (only_save_writes with_good_file playing
           [(at_time 10, NumberKey 5); (at_time 20, NumberKey 1)]);
    [reflexivity | vm_compute; by eexists].
Defined.

(** X3. The exit flag [running] is lowered by '6' in the menu and by
    nothing else, and no step raises it again: once the program was told
    to exit, it stays so over any run. *)
Theorem exit_is_final (w w' : MusicInstrument) (sched : list (env * event)) :
  run sched w = Some w' ->
  running w = false ->
  running w' = false
  /\ forall e ev w1 w2,
       step e ev w1 = Some w2 ->
       running w2 ≠ running w1 ->
       ev = NumberKey 6 /\ current_mode (ui w1) = M_menu /\ running w1 = true.
Proof.
  intros Hrun Hoff.
  assert (forall e ev w1 w2,
            step e ev w1 = Some w2 ->
            running w2 ≠ running w1 ->
            ev = NumberKey 6 /\ current_mode (ui w1) = M_menu /\ running w1 = true)
    as Honly.
  { intros e ev w1 w2 Hstep Hch.
    destruct (step_frame e ev w1 w2 Hstep) as (_ & [?|(-> & Hm & Hr)] & _); first done.
    repeat split; try done. rewrite Hr in Hch. by destruct (running w1). }
  split; last exact Honly.
  revert Hoff. apply (run_preserves (P := fun w0 => running w0 = false) sched); last done.
  intros e ev w1 w2 Hstep Hr.
  destruct (decide (running w2 = running w1)) as [->|Hch]; first done.
  destruct (Honly e ev w1 w2 Hstep Hch) as (_ & _ & Hon). congruence.
Qed.

Lemma exit_is_final_witness :
  exists w',
    run [(at_time 10, NumberKey 2); (at_time 20, NoteKey "a"); (at_time 30, SpaceKey)]
      (_on_number_key (at_time 5) 6 fresh) = Some w'
    /\ running w' = false.
Proof.
  destruct (run [(at_time 10, NumberKey 2); (at_time 20, NoteKey "a"); (at_time 30, SpaceKey)]
              (_on_number_key (at_time 5) 6 fresh)) as [w'|] eqn:Hrun;
    last (vm_compute in Hrun; discriminate).
  exists w'. split; first reflexivity.
  apply (exit_is_final (_on_number_key (at_time 5) 6 fresh) w' _ Hrun). reflexivity.
Defined.

(** ** The stop key *)

(** X4. In a state the program can reach, the stop key (space) does
    nothing outside the mode "record"; in that mode the buffer is a list,
    and the key lowers the recording flag, goes to the menu, keeps the
    buffer and the start time, and reports the length of the buffer in the
    status message. *)
Theorem space_stops_the_take (w : MusicInstrument) :
  reachable w ->
  (current_mode (ui w) ≠ M_record -> _on_space w = Some w)
  /\ (current_mode (ui w) = M_record ->
      exists l,
        current_recording (recording_manager w) = PyList l
        /\ _on_space w
           = Some (set_status
                     ("Recording stopped. Captured " +:+ pretty (length l) +:+ " notes.")
                     (set_mode M_menu
                        (with_recording_manager
                           {| current_recording := PyList l;
                              recording_start_time :=
                                recording_start_time (recording_manager w);
                              is_recording := false |} w)))).
Proof.
  intros Hreach.
  destruct (reachable_session_inv w Hreach) as (Hmode & Htake & _).
  unfold _on_space. split.
  - by destruct (current_mode (ui w)).
  - intros Hm. rewrite Hm.
    destruct (Htake (proj2 Hmode Hm)) as (s & l & _ & Hst & Hcr).
    exists l. split; first done.
    unfold RM.stop_recording. by rewrite Hcr.
Qed.

Lemma space_stops_the_take_witness :
  (status_message ∘ ui) <$> _on_space recording_from_100
  = Some "Recording stopped. Captured 0 notes."
  /\ _on_space playing = Some playing.
Proof.
  destruct (space_stops_the_take recording_from_100 reachable_recording_from_100)
    as [_ Hrec].
  destruct (Hrec eq_refl) as (l & Hl & ->). injection Hl as <-.
  split; first reflexivity.
  apply space_stops_the_take; last discriminate.
  apply (reachable_step selecting (at_time 20) (NumberKey 1));
    [apply reachable_selecting | discriminate | reflexivity].
Defined.

(** X5. An empty take can be neither played nor saved.  From the menu,
    '2' and then the stop key leave the empty buffer and the files as they
    were, with the status "Captured 0 notes"; no thread is started or
    stopped (those that run keep the list they were iterating over).  After
    that '3' and '4' only set their status messages: no thread is started
    and no file is written. *)
Theorem empty_take_is_not_played_or_saved (w : MusicInstrument) (e0 e1 : env) :
  current_mode (ui w) = M_menu ->
  exists w1,
    run [(e0, NumberKey 2); (e1, SpaceKey)] w = Some w1
    /\ current_mode (ui w1) = M_menu
    /\ current_recording (recording_manager w1) = PyList []
    /\ status_message (ui w1) = "Recording stopped. Captured 0 notes."
    /\ disk w1 = disk w
    /\ threads w1 = detach <$> threads w
    /\ forall e,
         _on_number_key e 3 w1 = set_status "No recording available to play" w1
         /\ _on_number_key e 4 w1 = set_status "No recording to save" w1.
Proof.
  intros Hm. cbn [run step mbind option_bind hooked_digit Nat.leb andb].
  unfold _on_number_key at 1. rewrite Hm.
  cbn. eexists. split; first reflexivity. by repeat split.
Qed.

Lemma empty_take_is_not_played_or_saved_witness :
  exists w1,
    run [(at_time 100, NumberKey 2); (at_time 200, SpaceKey)] with_good_file = Some w1
    /\ threads (_on_number_key (at_time 300) 3 w1) = []
    /\ disk (_on_number_key (at_time 300) 4 w1) = disk with_good_file.
Proof.
  destruct (empty_take_is_not_played_or_saved with_good_file (at_time 100) (at_time 200))
    as (w1 & Hrun & _ & _ & _ & Hdisk & Hth & Hkeys); first reflexivity.
  exists w1. split; first exact Hrun.
  destruct (Hkeys (at_time 300)) as [-> ->]. cbn. by rewrite Hdisk, Hth.
Defined.

(** ** The escape key *)

(** X20. In a state the program can reach, escape in any mode but the menu
    goes to the menu, clears the pending selection and leaves the status
    "Returned to main menu"; the recording flag is down afterwards (it was
    up exactly when the mode was "record"), and the buffer, the start time,
    the files, the playback threads and what was heard are as they were. *)
Theorem escape_returns_to_menu (w : MusicInstrument) :
  reachable w ->
  current_mode (ui w) ≠ M_menu ->
  exists w',
    _on_escape w = Some w'
    /\ current_mode (ui w') = M_menu
    /\ selection_mode_recordings w' = []
    /\ status_message (ui w') = "Returned to main menu"
    /\ (is_recording (recording_manager w) = true <-> current_mode (ui w) = M_record)
    /\ is_recording (recording_manager w') = false
    /\ current_recording (recording_manager w') = current_recording (recording_manager w)
    /\ recording_start_time (recording_manager w')
       = recording_start_time (recording_manager w)
    /\ disk w' = disk w
    /\ threads w' = threads w
    /\ heard w' = heard w.
Proof.
  intros Hreach Hmenu.
  destruct (reachable_session_inv w Hreach) as (Hmode & Htake & _).
  unfold _on_escape.
  destruct (current_mode (ui w)) eqn:Hm; first done;
    (destruct (is_recording (recording_manager w)) eqn:Hon;
     [destruct (Htake eq_refl) as (s & l & Hs & Hst & Hcr);
      unfold RM.stop_recording; rewrite Hcr; cbn
     |cbn];
     eexists; (split; first reflexivity); cbn; rewrite ?Hon;
     repeat split; try done; tauto).
Qed.

Lemma escape_returns_to_menu_witness :
  exists w1 w',
    step (at_time 350) (NoteKey "a") recording_from_100 = Some w1
    /\ _on_escape w1 = Some w'
    /\ current_mode (ui w') = M_menu
    /\ is_recording (recording_manager w') = false
    /\ current_recording (recording_manager w') = recording_of [("sa", 250%Z)].
Proof.
  destruct (step (at_time 350) (NoteKey "a") recording_from_100) as [w1|] eqn:Hstep;
    last (vm_compute in Hstep; discriminate).
  destruct (escape_returns_to_menu w1)
    as (w' & Hrun & Hmode & _ & _ & _ & Hoff & Hcr & _).
  - apply (reachable_step recording_from_100 (at_time 350) (NoteKey "a"));
      [apply reachable_recording_from_100 | discriminate | exact Hstep].
  - vm_compute in Hstep. injection Hstep as <-. discriminate.
  - exists w1, w'. split; first reflexivity. split; first exact Hrun.
    split; first exact Hmode. split; first exact Hoff.
    rewrite Hcr. vm_compute in Hstep. by injection Hstep as <-.
Defined.

(** ** Loading *)

Lemma dict_get_absent {A} (k : string) (default : A) (d : list (string * A)) :
  k ∉ d.*1 -> dict_get k default d = default.
Proof.
  induction d as [|[k' v] d IH]; first done.
  cbn. intros Hk. apply not_elem_of_cons in Hk as [Hne Hk].
  destruct (String.eqb_spec k k'); first done. by apply IH.
Qed.

(** X6. [load_recording] returns [True] exactly when the file can be
    opened, exists, and holds a JSON object; in every other case (no such
    file, text that is not JSON, a JSON value that is no object, a failed
    [open]) it returns [False] and leaves the manager as it was.  It never
    changes the recording flag or the start time, and an object without the
    key ['notes'] loads as the empty recording. *)
Theorem load_recording_outcome (n : string) (e : env) (rm : RecordingManager)
    (d : gmap string file) :
  ((RM.load_recording n e rm d).1 = true
   <-> io_ok e = true /\ exists j kvs, d !! n = Some (Doc j) /\ of_json j = PyDict kvs)
  /\ ((RM.load_recording n e rm d).1 = false -> (RM.load_recording n e rm d).2 = rm)
  /\ is_recording (RM.load_recording n e rm d).2 = is_recording rm
  /\ recording_start_time (RM.load_recording n e rm d).2 = recording_start_time rm
  /\ (forall j kvs,
        io_ok e = true -> d !! n = Some (Doc j) -> of_json j = PyDict kvs ->
        current_recording (RM.load_recording n e rm d).2
        = dict_get "notes" (PyList []) kvs
        /\ ("notes" ∉ kvs.*1 ->
            current_recording (RM.load_recording n e rm d).2 = PyList [])).
Proof.
  unfold RM.load_recording.
  destruct (d !! n) as [[j|]|] eqn:Hfile; destruct (io_ok e) eqn:Hio; cbn;
    try (split; [split; [intros; congruence | intros (? & ? & ? & ? & ?); congruence]
                | repeat (split; [done|]); intros; congruence]).
  destruct (of_json j) as [| | | | | |kvs] eqn:Hj; cbn;
    try (split; [split; [intros; congruence | intros (? & ? & ? & ? & ?); congruence]
                | repeat (split; [done|]); intros; congruence]).
  split; first (split; [by eauto | done]).
  repeat (split; [done|]).
  intros j0 kvs0 _ [= <-] Hj0. rewrite Hj in Hj0. injection Hj0 as <-.
  split; first done. apply dict_get_absent.
Qed.

(** ** What a playback thread touches *)

(** X8. A step of a playback thread changes nothing but that thread, the
    last played note and what was heard: the mode, the status, the buffer and
    the recording flag, the selection, the files, the exit flag and the other
    threads are as before, and what was heard is only added to.  So a
    playback that has come to its end leaves the program in whatever mode the
    keys left it. *)
Theorem playback_thread_keeps_the_rest (e : env) (i : nat) (w : MusicInstrument) :
  recording_manager (thread_step e i w) = recording_manager w
  /\ sound_manager (thread_step e i w) = sound_manager w
  /\ selection_mode_recordings (thread_step e i w) = selection_mode_recordings w
  /\ disk (thread_step e i w) = disk w
  /\ running (thread_step e i w) = running w
  /\ current_mode (ui (thread_step e i w)) = current_mode (ui w)
  /\ status_message (ui (thread_step e i w)) = status_message (ui w)
  /\ available_recordings (ui (thread_step e i w)) = available_recordings (ui w)
  /\ length (threads (thread_step e i w)) = length (threads w)
  /\ (forall j, j ≠ i -> threads (thread_step e i w) !! j = threads w !! j)
  /\ exists h, heard (thread_step e i w) = heard w ++ h.
Proof.
  unfold thread_step. destruct (threads w !! i) as [p|];
    last (repeat split; try done; by exists []; rewrite app_nil_r).
  pose proof (playback_step_frame (sound_manager w) (now e)
                (current_recording (recording_manager w)) p (ui w)) as Hf.
  destruct (playback_step _ _ _ _ p (ui w)) as [[p' effs] u']. cbn in *.
  destruct Hf as (Hm & Hs & Hav).
  repeat split; try done.
  - apply length_insert.
  - intros j Hj. by apply list_lookup_insert_ne.
  - by eexists.
Qed.

(** ** More on the playback thread *)

Section PlaybackMore.
Context {St : Type}.
Variable sm : SoundManager.
Variable callback : option (pyval -> St -> St).

Lemma loop_head_wait st t item note d :
  loop_head st t item = Some (note, Some d) -> (0 < d)%Z.
Proof.
  unfold loop_head. destruct (py_unpack2 item) as [[n ts]|]; last done.
  destruct (py_num ts) as [x|]; last done.
  destruct (Z.gtb_spec (st + x) t); intros [= _ <-]. lia.
Qed.

Lemma loop_tail_no_sleep note s effs s' :
  loop_tail sm callback note s = Some (effs, s') -> Forall positive_sleep effs.
Proof.
  unfold loop_tail, play_note. destruct (py_hashable note); last done.
  destruct callback; intros [= <- _]; by repeat constructor.
Qed.

Lemma playback_loop_sleeps st clock items :
  forall k s, Forall positive_sleep (playback_loop sm callback st clock k items s).1.1.
Proof.
  induction items as [|item items IH]; intros k s; first constructor.
  cbn [playback_loop].
  destruct (loop_head st (clock k) item) as [[note wait]|] eqn:Hhead; last constructor.
  assert (Forall positive_sleep (sleep_effect wait)) as Hwait.
  { destruct wait as [d|]; last constructor.
    repeat constructor. by eapply loop_head_wait. }
  destruct (loop_tail sm callback note s) as [[effs s']|] eqn:Htail; last done.
  specialize (IH (S k) s').
  destruct (playback_loop sm callback st clock (S k) items s') as [[effs' s''] ok].
  cbn in *. apply Forall_app. split; first done.
  apply Forall_app. split; last done. by eapply loop_tail_no_sleep.
Qed.

Lemma after_callbacks_app evs1 evs2 (s : St) :
  after_callbacks callback (evs1 ++ evs2) s
  = after_callbacks callback evs2 (after_callbacks callback evs1 s).
Proof. destruct callback; last done. cbn. apply foldl_app. Qed.

Lemma playback_loop_prefix st clock good evs tail :
  Forall2 (fun item ev => event_of item = Some ev) good evs ->
  forall k s,
    playback_loop sm callback st clock k (good ++ tail) s
    = let '(effs, s', ok) :=
        playback_loop sm callback st clock (k + length good) tail
          (after_callbacks callback evs s) in
      (schedule sm (has_callback callback) st clock k evs ++ effs, s', ok).
Proof.
  induction 1 as [|item [note t] good evs Hev _ IH]; intros k s.
  - cbn [app length schedule]. rewrite Nat.add_0_r.
    replace (after_callbacks callback [] s) with s by by destruct callback.
    by destruct (playback_loop _ _ _ _ _ _ _) as [[? ?] ?].
  - cbn [app playback_loop schedule length]. unfold loop_head.
    rewrite (event_of_Some _ _ _ Hev). cbn [py_num].
    unfold loop_tail. cbn [play_note py_hashable in_sounds].
    rewrite Z.gtb_ltb.
    replace (k + S (length good)) with (S k + length good) by lia.
    assert (forall s0, after_callbacks callback ((note, t) :: evs) s0
                       = after_callbacks callback evs
                           (match callback with
                            | Some cb => cb (PyStr note) s0
                            | None => s0
                            end)) as Hcb by by destruct callback.
    rewrite Hcb.
    destruct callback as [cb|]; cbn [has_callback]; rewrite IH;
      destruct (playback_loop _ _ _ _ _ tail _) as [[effs s'] ok];
      destruct (clock k <? st + t)%Z; cbn; by rewrite <- ?app_assoc.
Qed.
End PlaybackMore.

(** X9. The playback thread never calls [time.sleep] with a duration that
    is zero or negative, whatever the recording holds and whatever the
    clock reads: a sleep happens only when the target time lies ahead. *)
Theorem playback_sleeps_are_positive {St : Type} (sm : SoundManager)
    (callback : option (pyval -> St -> St)) (clock : nat -> Z) (recording : pyval) (s : St) :
  Forall positive_sleep (playback_thread sm callback clock recording s).1.1.
Proof.
  unfold playback_thread. destruct (py_iter recording); last constructor.
  apply playback_loop_sleeps.
Qed.

(** X10. An item of the buffer that cannot be unpacked into a note and a
    number ends the playback thread at that item: the events before it are
    played as scheduled, the item and everything after it are not, and the
    loop does not come to its end. *)
Theorem playback_ends_at_bad_item {St : Type} (sm : SoundManager)
    (callback : option (pyval -> St -> St)) (clock : nat -> Z)
    (good : list pyval) (evs : list (string * Z)) (bad : pyval) (rest : list pyval) (s : St) :
  Forall2 (fun item ev => event_of item = Some ev) good evs ->
  py_unpack2 bad ≫= (fun p => py_num p.2) = None ->
  playback_thread sm callback clock (PyList (good ++ bad :: rest)) s
  = (schedule sm (has_callback callback) (clock 0%nat) clock 1 evs,
     after_callbacks callback evs s, false).
Proof.
  intros Hgood Hbad. unfold playback_thread. cbn [py_iter].
  rewrite (playback_loop_prefix sm callback _ _ good evs _ Hgood).
  cbn [playback_loop]. unfold loop_head.
  destruct (py_unpack2 bad) as [[note ts]|]; cbn in Hbad.
  - rewrite Hbad. by rewrite app_nil_r.
  - by rewrite app_nil_r.
Qed.

Lemma playback_ends_at_bad_item_witness :
  playback_thread {| sounds := {["sa"]} |} (Some UI.update_last_note) (fun _ => 50%Z)
    (PyList [PyList [PyStr "sa"; PyNum 0]; PyList [PyStr "re"];
             PyList [PyStr "ga"; PyNum 10]]) UI.init
  = ([Trigger (PyStr "sa") true; Callback (PyStr "sa")],
     UI.update_last_note (PyStr "sa") UI.init, false).
Proof.
  change (PyList [PyList [PyStr "sa"; PyNum 0]; PyList [PyStr "re"];
                  PyList [PyStr "ga"; PyNum 10]])
    with (PyList ([PyList [PyStr "sa"; PyNum 0]]
                  ++ PyList [PyStr "re"] :: [PyList [PyStr "ga"; PyNum 10]])).
  rewrite (playback_ends_at_bad_item {| sounds := {["sa"]} |} (Some UI.update_last_note)
             (fun _ => 50%Z) [PyList [PyStr "sa"; PyNum 0]] [("sa", 0%Z)]);
    [by vm_compute | by repeat constructor | reflexivity].
Defined.

(** ** Keys and their case *)

Lemma lower_ascii_idemp c : lower_ascii (lower_ascii c) = lower_ascii c.
Proof. by destruct c as [[] [] [] [] [] [] [] []]. Qed.

Lemma lower_idemp s : lower (lower s) = lower s.
Proof. induction s as [|c s IH]; first done. cbn. by rewrite lower_ascii_idemp, IH. Qed.

(** X12. The note keys do not depend on the case of the key name: the
    handler does for a name what it does for the name in lower case, and a
    name that is no key of the catalog once lowered is ignored. *)
Theorem note_key_ignores_case (e : env) (name : string) (w : MusicInstrument) :
  _on_note_key e (lower name) w = _on_note_key e name w
  /\ (lookup_key (lower name) UI.key_to_note = None -> _on_note_key e name w = Some w).
Proof.
  unfold _on_note_key. rewrite lower_idemp. split; first done.
  by intros ->.
Qed.

(** ** The selection of a recording *)

Lemma select_mode_step e ev w w' :
  step e ev w = Some w' ->
  current_mode (ui w') = M_select_recording ->
  (current_mode (ui w) = M_select_recording
   /\ selection_mode_recordings w' = selection_mode_recordings w
   /\ disk w' = disk w)
  \/ (selection_mode_recordings w' = RM.get_available_recordings (disk w')
      /\ selection_mode_recordings w' ≠ []).
Proof.
  intros Hstep. destruct ev as [name| | |digit|j]; cbn in Hstep.
  - unfold _on_note_key in Hstep.
    destruct (lookup_key _ _) as [[note_id display_note]|];
      last (injection Hstep as <-; by left).
    cbn in Hstep.
    pose proof (update_last_note_frame (PyStr note_id) (ui w)) as (Hm & _).
    destruct (is_recording _).
    + destruct (RM.add_note _ _ _); last done. injection Hstep as <-.
      cbn. rewrite Hm. by left.
    + injection Hstep as <-. cbn. rewrite Hm. by left.
  - unfold _on_escape in Hstep.
    destruct (current_mode (ui w)) eqn:Hm; [injection Hstep as <-; by rewrite Hm|..];
      (destruct (is_recording _); cbn in Hstep;
       [destruct (py_len _); last done|]; by injection Hstep as <-).
  - unfold _on_space in Hstep.
    destruct (current_mode (ui w)) eqn:Hm;
      try (injection Hstep as <-; rewrite ?Hm; first [done | by left]).
    cbn in Hstep. destruct (py_len _); last done. by injection Hstep as <-.
  - injection Hstep as <-. destruct (hooked_digit digit); last (intros Hm; by left).
    unfold _on_number_key.
    destruct (current_mode (ui w)) eqn:Hm; try (by rewrite Hm); last first.
    + unfold _handle_recording_selection.
      destruct (_ && _); last (by left).
      destruct (_ !! _) as [selected|]; last (by left).
      destruct (RM.load_recording _ _ _ _) as [[] rm]; last (by left).
      unfold playback_recording. cbn. by destruct (negb _).
    + unfold _handle_menu_selection.
      destruct digit as [|[|[|[|[|[|[|digit]]]]]]].
      1-5, 7-8: unfold playback_recording, RM.save_recording; repeat case_match;
        cbn; by rewrite ?Hm.
      destruct (negb (bool_decide (RM.get_available_recordings (disk w) = [])))
        eqn:Hne; last (cbn; by rewrite Hm).
      intros _. right. cbn. split; first done.
      intros Hnil. rewrite Hnil in Hne. by rewrite bool_decide_eq_true_2 in Hne.
  - injection Hstep as <-.
    destruct (thread_step_frame e j w) as (_ & _ & Hsel & Hdisk & Hm & _).
    rewrite Hm. by left.
Qed.

Lemma reachable_selection w :
  reachable w ->
  current_mode (ui w) = M_select_recording ->
  selection_mode_recordings w = RM.get_available_recordings (disk w)
  /\ selection_mode_recordings w ≠ [].
Proof.
  induction 1 as [samples files|w e ev w' _ IH _ Hstep]; first done.
  intros Hm.
  destruct (select_mode_step e ev w w' Hstep Hm) as [(Hm0 & -> & ->)|]; last done.
  by apply IH.
Qed.

(** What the handler does for the digit that stands for place [k]. *)
Lemma selection_picks e k name w :
  current_mode (ui w) = M_select_recording ->
  selection_mode_recordings w !! k = Some name ->
  _on_number_key e (S k) w
  = match RM.load_recording name e (recording_manager w) (disk w) with
    | (true, rm) =>
        playback_recording
          (set_status ("Loaded and playing: " +:+ name)
             (set_mode M_playback (rebound_buffer rm w)))
    | (false, _) => set_status "Failed to load recording" w
    end.
Proof.
  intros Hm Hname. unfold _on_number_key, _handle_recording_selection. rewrite Hm.
  pose proof (lookup_lt_Some _ _ _ Hname) as Hlt.
  destruct (Z.leb_spec 0 (Z.of_nat (S k) - 1)) as [_|]; last lia.
  destruct (Z.ltb_spec (Z.of_nat (S k) - 1)
              (Z.of_nat (length (selection_mode_recordings w)))) as [_|]; last lia.
  cbn [andb]. replace (Z.to_nat (Z.of_nat (S k) - 1)) with k by lia.
  by rewrite Hname.
Qed.

(** X13. In the mode "select_recording" of a state the program can reach,
    the names offered are the stems of the files of [recordings/] as they
    are now, and there is at least one; the list the UI shows is the list the
    digits index.  An offered name other than [".json"] is the name of a
    file that is there, so that loading it does not fail for want of the
    file.  The name [".json"] is what is offered for the file [.json], and
    choosing it looks for the file [.json.json]: when that one is not there,
    the load fails. *)
Theorem selection_offers_the_files (w : MusicInstrument) :
  reachable w ->
  current_mode (ui w) = M_select_recording ->
  selection_mode_recordings w ≠ []
  /\ available_recordings (ui w) = Some (selection_mode_recordings w)
  /\ (forall n, n ∈ selection_mode_recordings w
                <-> exists b, is_Some (disk w !! b) /\ n = RM.stem_of_json b)
  /\ (forall n, n ∈ selection_mode_recordings w -> n ≠ ".json" -> is_Some (disk w !! n))
  /\ (is_Some (disk w !! "") ->
      ".json" ∈ selection_mode_recordings w
      /\ (disk w !! ".json" = None ->
          forall e rm, RM.load_recording ".json" e rm (disk w) = (false, rm))).
Proof.
  intros Hreach Hm.
  destruct (reachable_selection w Hreach Hm) as [Hsel Hne].
  destruct (reachable_session_inv w Hreach) as (_ & _ & Hav).
  assert (forall n, n ∈ selection_mode_recordings w
                    <-> exists b, is_Some (disk w !! b) /\ n = RM.stem_of_json b) as Hlist.
  { intros n. rewrite Hsel. unfold RM.get_available_recordings.
    rewrite list_elem_of_fmap. split.
    - intros (b & -> & Hin). apply list_elem_of_fmap in Hin as ([b' f] & -> & Hin).
      apply elem_of_map_to_list in Hin. exists b'. split; [by eexists | done].
    - intros (b & [f Hf] & ->). exists b. split; first done.
      apply list_elem_of_fmap. exists (b, f). split; first done.
      by apply elem_of_map_to_list. }
  split; first done.
  split; first by apply Hav.
  split; first exact Hlist.
  split.
  - intros n (b & Hb & ->)%Hlist Hother. unfold RM.stem_of_json in *.
    by destruct (String.eqb b "").
  - intros Hfile. split.
    + apply Hlist. by exists "".
    + intros Hnone e rm. unfold RM.load_recording. by rewrite Hnone.
Qed.

Lemma selection_offers_the_files_witness :
  selection_mode_recordings selecting ≠ []
  /\ "a" ∈ selection_mode_recordings selecting
  /\ "b" ∉ selection_mode_recordings selecting.
Proof.
  destruct (selection_offers_the_files selecting reachable_selecting eq_refl)
    as (Hne & _ & Hlist & Hfiles & _).
  split; first exact Hne. split.
  - apply Hlist. exists "a". split; [by eexists | reflexivity].
  - intros Hin. apply Hfiles in Hin; last discriminate.
    vm_compute in Hin. by destruct Hin.
Defined.

(** X14. The selection panel numbers the recordings the way the digits
    choose them: in the mode "select_recording" of a state the program can
    reach, the panel shows, after its two heading lines, one line
    "k+1. name" for the name at place [k] of the list, and the digit [k+1]
    is the one that loads that name (and plays it if the load succeeds). *)
Theorem selector_numbers_match_digits (w : MusicInstrument) (e : env) (k : nat)
    (name : string) :
  reachable w ->
  current_mode (ui w) = M_select_recording ->
  selection_mode_recordings w !! k = Some name ->
  _create_recording_selector (ui w) !! (2 + k)
  = Some (pretty (S k) +:+ ". " +:+ name +:+ newline)
  /\ length (_create_recording_selector (ui w)) = 4 + length (selection_mode_recordings w)
  /\ _on_number_key e (S k) w
     = match RM.load_recording name e (recording_manager w) (disk w) with
       | (true, rm) =>
           playback_recording
             (set_status ("Loaded and playing: " +:+ name)
                (set_mode M_playback (rebound_buffer rm w)))
       | (false, _) => set_status "Failed to load recording" w
       end.
Proof.
  intros Hreach Hm Hname.
  destruct (reachable_session_inv w Hreach) as (_ & _ & Hav).
  split; [|split; [|by apply selection_picks]];
    unfold _create_recording_selector; rewrite (Hav Hm);
    destruct (selection_mode_recordings w) as [|r rs] eqn:Hsel; try done.
  - rewrite <- !app_assoc.
    rewrite lookup_app_r by (cbn; lia). rewrite lookup_app_r by (cbn; lia).
    replace (2 + k - length ["🎵 Select Recording to Play 🎵" +:+ newline +:+ newline]
             - length ["Available recordings:" +:+ newline +:+ newline]) with k
      by (cbn; lia).
    rewrite lookup_app_l by (rewrite length_imap; by eapply lookup_lt_Some).
    by rewrite list_lookup_imap, Hname.
  - rewrite !length_app, length_imap. cbn. lia.
Qed.

Lemma selector_numbers_match_digits_witness :
  _create_recording_selector (ui selecting) !! 2 = Some ("1. a" +:+ newline)
  /\ current_mode (ui (_on_number_key (at_time 20) 1 selecting)) = M_playback.
Proof.
  destruct (selector_numbers_match_digits selecting (at_time 20) 0 "a"
              reachable_selecting eq_refl eq_refl) as (Hline & _ & Hkey).
  split; first exact Hline. by rewrite Hkey.
Defined.

(** ** Loading the samples *)

Lemma load_sounds_fold (present loadable : string -> bool)
    (files : list (string * string)) (acc : gset string) (note : string) :
  note ∈ foldl (fun (sounds : gset string) (nf : string * string) =>
                  if present nf.2 then
                    if loadable nf.2 then {[nf.1]} ∪ sounds else sounds
                  else sounds) acc files
  <-> note ∈ acc
      \/ exists f, (note, f) ∈ files /\ present f = true /\ loadable f = true.
Proof.
  revert acc. induction files as [|[n f] files IH]; intros acc; cbn [foldl].
  - split; first by left. intros [?|(f & Hin & _)]; first done. by apply elem_of_nil in Hin.
  - rewrite IH. cbn. split.
    + intros [Hacc|(f' & Hin & Hp & Hl)].
      * destruct (present f) eqn:Hp; last by left.
        destruct (loadable f) eqn:Hl; last by left.
        apply elem_of_union in Hacc as [->%elem_of_singleton|?]; last by left.
        right. exists f. split; first left. done.
      * right. exists f'. split; first by right. done.
    + intros [Hacc|(f' & Hin & Hp & Hl)].
      * left. destruct (present f); last done. destruct (loadable f); last done.
        apply elem_of_union. by right.
      * apply elem_of_cons in Hin as [[= -> ->]|Hin].
        -- left. rewrite Hp, Hl. apply elem_of_union. left. by apply elem_of_singleton.
        -- right. by exists f'.
Qed.

Lemma note_files_of_key (key note_id display_note f : string) :
  lookup_key key UI.key_to_note = Some (note_id, display_note) ->
  (note_id, f) ∈ note_files <-> f = note_id +:+ ".wav".
Proof.
  unfold UI.key_to_note. cbn [lookup_key].
  repeat (match goal with
          | |- context [String.eqb ?a key] => destruct (String.eqb a key)
          end;
          [intros [= <- <-]; unfold note_files; split;
           [intros Hin; repeat (apply elem_of_cons in Hin as [[= ->]|Hin]; try done);
            try (by apply elem_of_nil in Hin)
           |intros ->; cbn; repeat (first [by left | right])]|]).
  done.
Qed.

(** X15. A sample is loaded exactly for the notes of the table whose file
    is in [sounds/] and is accepted by the mixer; and since the file of the
    note of a key is the note's name with ".wav", a press of a note key
    right after the start sounds exactly when that file was there and could
    be loaded (otherwise the key is silent, without any error). *)
Theorem key_sounds_iff_sample_loaded (present loadable : string -> bool)
    (files : gmap string file) (e : env) (name note_id display_note : string) :
  lookup_key (lower name) UI.key_to_note = Some (note_id, display_note) ->
  (forall note,
      note ∈ _load_sounds present loadable
      <-> exists f, (note, f) ∈ note_files /\ present f = true /\ loadable f = true)
  /\ heard <$> _on_note_key e name (init_from present loadable files)
     = Some [Trigger (PyStr note_id)
               (present (note_id +:+ ".wav") && loadable (note_id +:+ ".wav"))].
Proof.
  intros Hkey.
  assert (forall note,
            note ∈ _load_sounds present loadable
            <-> exists f, (note, f) ∈ note_files /\ present f = true /\ loadable f = true)
    as Hloaded.
  { intros note. unfold _load_sounds. rewrite load_sounds_fold. split.
    - intros [Hin|?]; last done. by apply elem_of_empty in Hin.
    - by right. }
  split; first exact Hloaded.
  unfold _on_note_key. rewrite Hkey. cbn -[_load_sounds]. do 3 f_equal.
  destruct (present (note_id +:+ ".wav") && loadable (note_id +:+ ".wav")) eqn:Hfile.
  - apply andb_prop in Hfile as [Hp Hl].
    apply bool_decide_eq_true_2, Hloaded. eexists. split; last done.
    by apply (note_files_of_key _ _ _ _ Hkey).
  - apply bool_decide_eq_false_2. intros (f & Hin & Hp & Hl)%Hloaded.
    apply (note_files_of_key _ _ _ _ Hkey) in Hin as ->. by rewrite Hp, Hl in Hfile.
Qed.

Lemma key_sounds_iff_sample_loaded_witness :
  heard <$> _on_note_key (at_time 10) "D"
              (init_from (fun f => bool_decide (f ≠ "ma.wav")) (fun _ => true) ∅)
  = Some [Trigger (PyStr "ga") true]
  /\ heard <$> _on_note_key (at_time 10) "f"
                 (init_from (fun f => bool_decide (f ≠ "ma.wav")) (fun _ => true) ∅)
     = Some [Trigger (PyStr "ma") false].
Proof.
  split.
  - etrans; first apply (key_sounds_iff_sample_loaded (fun f => bool_decide (f ≠ "ma.wav"))
                           (fun _ => true) ∅ (at_time 10) "D" "ga" "Ga" eq_refl).
    reflexivity.
  - etrans; first apply (key_sounds_iff_sample_loaded (fun f => bool_decide (f ≠ "ma.wav"))
                           (fun _ => true) ∅ (at_time 10) "f" "ma" "Ma" eq_refl).
    reflexivity.
Defined.

(** ** Values that come from a file *)

Lemma json_nested_ind (P : json -> Prop) :
  P JNull -> (forall b, P (JBool b)) -> (forall x, P (JNum x)) -> (forall s, P (JStr s)) ->
  (forall l, Forall P l -> P (JArr l)) ->
  (forall kvs, Forall (fun kv => P kv.2) kvs -> P (JObj kvs)) ->
  forall j, P j.
Proof.
  intros Hnull Hbool Hnum Hstr Harr Hobj. fix IH 1. intros [|b|x|s|l|kvs].
  - apply Hnull.
  - apply Hbool.
  - apply Hnum.
  - apply Hstr.
  - apply Harr. induction l as [|j l IHl]; constructor; [apply IH | apply IHl].
  - apply Hobj. induction kvs as [|[k j] kvs IHk]; constructor; [apply IH | apply IHk].
Qed.

Lemma pyval_nested_ind (P : pyval -> Prop) :
  P PyNone -> (forall b, P (PyBool b)) -> (forall x, P (PyNum x)) -> (forall s, P (PyStr s)) ->
  (forall l, Forall P l -> P (PyList l)) ->
  (forall l, Forall P l -> P (PyTuple l)) ->
  (forall d, Forall (fun kv => P kv.2) d -> P (PyDict d)) ->
  forall v, P v.
Proof.
  intros Hnone Hbool Hnum Hstr Hlist Htuple Hdict. fix IH 1. intros [|b|x|s|l|l|d].
  - apply Hnone.
  - apply Hbool.
  - apply Hnum.
  - apply Hstr.
  - apply Hlist. induction l as [|v l IHl]; constructor; [apply IH | apply IHl].
  - apply Htuple. induction l as [|v l IHl]; constructor; [apply IH | apply IHl].
  - apply Hdict. induction d as [|[k v] d IHd]; constructor; [apply IH | apply IHd].
Qed.

Lemma json_native_list l :
  json_native (PyList l) = true <-> Forall (fun v => json_native v = true) l.
Proof.
  cbn. induction l as [|v l IH]; cbn.
  - split; [constructor | done].
  - rewrite andb_true_iff, IH. split.
    + intros [? ?]. by constructor.
    + intros [? ?]%Forall_cons. done.
Qed.

Lemma json_native_dict d :
  json_native (PyDict d) = true
  <-> Forall (fun kv => json_native kv.2 = true) d /\ NoDup d.*1.
Proof.
  cbn. rewrite andb_true_iff, bool_decide_eq_true.
  assert (forallb (fun kv : string * pyval => let (_, x) := kv in json_native x) d = true
          <-> Forall (fun kv => json_native kv.2 = true) d) as ->; last done.
  induction d as [|[k v] d IH]; cbn.
  - split; [constructor | done].
  - rewrite andb_true_iff, IH. split.
    + intros [? ?]. by constructor.
    + intros [? ?]%Forall_cons. done.
Qed.

Lemma dict_set_fresh {A} (k : string) (v : A) (d : list (string * A)) :
  k ∉ d.*1 -> dict_set k v d = d ++ [(k, v)].
Proof.
  induction d as [|[k' v'] d IH]; first done.
  cbn. intros [Hne Hk]%not_elem_of_cons.
  destruct (String.eqb_spec k k'); first done. by rewrite IH.
Qed.

Lemma dict_set_keys {A} (k : string) (v : A) (d : list (string * A)) :
  k ∈ d.*1 -> (dict_set k v d).*1 = d.*1.
Proof.
  induction d as [|[k' v'] d IH]; cbn; first by intros ?%elem_of_nil.
  destruct (String.eqb_spec k k') as [->|Hne]; first done.
  intros [?|Hin]%elem_of_cons; first done. cbn. by rewrite IH.
Qed.

Lemma dict_set_values {A} (P : A -> Prop) (k : string) (v : A) (d : list (string * A)) :
  P v -> Forall (fun kv => P kv.2) d -> Forall (fun kv => P kv.2) (dict_set k v d).
Proof.
  intros Hv. induction 1 as [|[k' v'] d Hv' Hd IH]; cbn; first by repeat constructor.
  destruct (String.eqb k k'); by constructor.
Qed.

Lemma dict_set_NoDup {A} (k : string) (v : A) (d : list (string * A)) :
  NoDup d.*1 -> NoDup (dict_set k v d).*1.
Proof.
  intros Hd. destruct (decide (k ∈ d.*1)) as [Hin|Hout].
  - by rewrite dict_set_keys.
  - rewrite dict_set_fresh, fmap_app by done. cbn.
    apply NoDup_app. split; first done. split; last by apply NoDup_singleton.
    intros k' Hk' ->%list_elem_of_singleton. done.
Qed.

Lemma dict_build_native (l acc : list (string * pyval)) :
  Forall (fun kv => json_native kv.2 = true) l ->
  Forall (fun kv => json_native kv.2 = true) acc ->
  NoDup acc.*1 ->
  json_native (PyDict (foldl (fun d kv => dict_set kv.1 kv.2 d) acc l)) = true.
Proof.
  intros Hl. revert acc. induction Hl as [|[k v] l Hv _ IH]; intros acc Hacc Hnd.
  - cbn [foldl]. by apply json_native_dict.
  - cbn [foldl]. apply IH.
    + by apply (dict_set_values (fun x => json_native x = true)).
    + by apply dict_set_NoDup.
Qed.

Lemma of_json_native j : json_native (of_json j) = true.
Proof.
  induction j as [|b|x|s|l IH|kvs IH] using json_nested_ind; try done.
  - cbn [of_json]. apply json_native_list. by apply Forall_fmap.
  - cbn [of_json]. apply dict_build_native; [|constructor|constructor].
    apply Forall_fmap. eapply Forall_impl; first exact IH. by intros [k x].
Qed.

Lemma dict_build_fresh {A} (l acc : list (string * A)) :
  NoDup (acc.*1 ++ l.*1) ->
  foldl (fun d kv => dict_set kv.1 kv.2 d) acc l = acc ++ l.
Proof.
  revert acc. induction l as [|[k v] l IH]; intros acc Hnd; cbn [foldl].
  - by rewrite app_nil_r.
  - cbn in *. rewrite dict_set_fresh.
    + rewrite IH; first by rewrite <- app_assoc.
      rewrite fmap_app. cbn. by rewrite <- app_assoc.
    + apply NoDup_app in Hnd as (_ & Hdisj & _). intros Hin.
      apply (Hdisj k Hin). by left.
Qed.

Lemma native_roundtrip v : json_native v = true -> of_json (to_json v) = v.
Proof.
  induction v as [|b|x|s|l IH|l IH|d IH] using pyval_nested_ind; try done.
  - intros Hl%json_native_list. cbn [to_json of_json]. f_equal.
    rewrite <- list_fmap_compose. induction l as [|v l IHl]; first done.
    apply Forall_cons in IH as [Hv IH]. apply Forall_cons in Hl as [Hnv Hl].
    cbn. by rewrite Hv, IHl.
  - intros [Hd Hnd]%json_native_dict. cbn [to_json of_json]. f_equal.
    rewrite <- list_fmap_compose.
    assert (((fun kv : string * json => let (k, x) := kv in (k, of_json x))
               ∘ (fun kv : string * pyval => let (k, x) := kv in (k, to_json x))) <$> d = d)
      as ->.
    { clear Hnd. induction d as [|[k v] d IHd]; first done.
      apply Forall_cons in IH as [Hv IH]. apply Forall_cons in Hd as [Hnv Hd].
      cbn in *. by rewrite Hv, IHd. }
    by rewrite dict_build_fresh.
Qed.

Lemma dict_get_native (d : list (string * pyval)) :
  Forall (fun kv => json_native kv.2 = true) d ->
  json_native (dict_get "notes" (PyList []) d) = true.
Proof.
  induction 1 as [|[k v] d Hv _ IH]; first done.
  cbn [dict_get]. by destruct (String.eqb "notes" k).
Qed.

(** X16. What was loaded from a file survives being saved and loaded
    again: if a load succeeded and left a buffer that is not empty, then
    saving it (under any name) succeeds when the file can be opened, and
    loading that name gives back the very same buffer, whatever the first
    file held under ['notes']. *)
Theorem reload_gives_the_same_buffer (n m : string) (e1 e2 e3 : env)
    (rm0 rm1 rm2 : RecordingManager) (d : gmap string file) :
  RM.load_recording n e1 rm0 d = (true, rm1) ->
  py_truthy (current_recording rm1) = true ->
  io_ok e2 = true ->
  io_ok e3 = true ->
  exists d' rm3,
    RM.save_recording m e2 rm1 d = (true, d')
    /\ RM.load_recording m e3 rm2 d' = (true, rm3)
    /\ current_recording rm3 = current_recording rm1.
Proof.
  intros Hload Htruthy He2 He3.
  assert (json_native (current_recording rm1) = true) as Hnative.
  { unfold RM.load_recording in Hload.
    destruct (d !! n) as [[j|]|]; try done; destruct (io_ok e1); try done.
    pose proof (of_json_native j) as Hj.
    destruct (of_json j) as [| | | | | |kvs]; try done.
    injection Hload as <-. cbn. apply json_native_dict in Hj as [Hj _].
    by apply dict_get_native. }
  unfold RM.save_recording. rewrite Htruthy, He2. cbn [negb].
  eexists _, _. split; first reflexivity.
  unfold RM.load_recording. rewrite lookup_insert_eq, He3.
  change (of_json (to_json (PyDict [("timestamp", PyStr (isoformat_now e2));
                                    ("notes", current_recording rm1)])))
    with (PyDict [("timestamp", PyStr (isoformat_now e2));
                  ("notes", of_json (to_json (current_recording rm1)))]).
  split; first reflexivity. cbn. by apply native_roundtrip.
Qed.

Lemma reload_gives_the_same_buffer_witness :
  exists d' rm3,
    RM.save_recording "copy" (at_time 30)
      (RM.load_recording "a" (at_time 20) RM.init (disk with_good_file)).2
      (disk with_good_file) = (true, d')
    /\ RM.load_recording "copy" (at_time 40) RM.init d' = (true, rm3)
    /\ current_recording rm3
       = PyList [PyList [PyStr "sa"; PyNum 0]; PyList [PyStr "re"; PyNum 1000]].
Proof.
  destruct (reload_gives_the_same_buffer "a" "copy" (at_time 20) (at_time 30) (at_time 40)
              RM.init
              (RM.load_recording "a" (at_time 20) RM.init (disk with_good_file)).2
              RM.init (disk with_good_file))
    as (d' & rm3 & Hsave & Hload & Hsame); [by vm_compute..|].
  exists d', rm3. split; first exact Hsave. split; first exact Hload.
  rewrite Hsame. by vm_compute.
Defined.

(** ** From a take to its replay *)

Lemma menu_save e w evs :
  current_mode (ui w) = M_menu ->
  current_recording (recording_manager w) = recording_of evs ->
  evs ≠ [] ->
  io_ok e = true ->
  _on_number_key e 4 w
  = set_status ("Recording saved as " +:+ ("recording_" +:+ strftime_now e) +:+ ".json")
      (with_disk
         (<["recording_" +:+ strftime_now e :=
              Doc (to_json (PyDict [("timestamp", PyStr (isoformat_now e));
                                    ("notes", recording_of evs)]))]> (disk w)) w).
Proof.
  intros Hm Hcr Hne Hio. unfold _on_number_key, _handle_menu_selection. rewrite Hm.
  unfold RM.save_recording. rewrite Hcr, py_truthy_recording_of.
  rewrite bool_decide_eq_false_2 by done. cbn [negb]. by rewrite Hio.
Qed.

Lemma menu_list e w n f :
  current_mode (ui w) = M_menu ->
  disk w !! n = Some f ->
  _on_number_key e 5 w
  = set_status "Select a recording to load and play"
      (set_mode M_select_recording
         (with_ui (UI.set_available_recordings (RM.get_available_recordings (disk w)) (ui w))
            (with_selection (RM.get_available_recordings (disk w)) w)))
  /\ RM.stem_of_json n ∈ RM.get_available_recordings (disk w)
  /\ length (RM.get_available_recordings (disk w)) = size (disk w).
Proof.
  intros Hm Hn.
  assert (RM.stem_of_json n ∈ RM.get_available_recordings (disk w)) as Hin.
  { unfold RM.get_available_recordings. apply list_elem_of_fmap.
    exists n. split; first done. apply list_elem_of_fmap.
    exists (n, f). split; first done. by apply elem_of_map_to_list. }
  split; last first.
  { split; first done. unfold RM.get_available_recordings.
    by rewrite !length_fmap, length_map_to_list. }
  unfold _on_number_key, _handle_menu_selection. rewrite Hm.
  rewrite bool_decide_eq_false_2; first done.
  intros Hnil. rewrite Hnil in Hin. by apply elem_of_nil in Hin.
Qed.

(** X17. A take that was saved can be chosen and is replayed as it was
    recorded.  From the menu with a non-empty buffer of events, '4' (the
    file can be written) and then '5' lead to the mode "select_recording"
    with the new file in the list.  When [recordings/] held fewer than nine
    files before, the place of the new file is one of the first nine, which
    are those that have a number key: that key (the file can be read)
    loads the file, goes to the mode "playback" and starts one playback
    thread, the buffer holding exactly the events of the take. *)
Theorem saved_take_can_be_chosen (w : MusicInstrument) (e1 e2 e3 : env)
    (evs : list (string * Z)) :
  current_mode (ui w) = M_menu ->
  current_recording (recording_manager w) = recording_of evs ->
  evs ≠ [] ->
  io_ok e1 = true ->
  io_ok e3 = true ->
  size (disk w) < 9 ->
  exists w2 k w3,
    run [(e1, NumberKey 4); (e2, NumberKey 5)] w = Some w2
    /\ current_mode (ui w2) = M_select_recording
    /\ selection_mode_recordings w2 !! k = Some ("recording_" +:+ strftime_now e1)
    /\ k < 9
    /\ step e3 (NumberKey (S k)) w2 = Some w3
    /\ current_mode (ui w3) = M_playback
    /\ events_of (current_recording (recording_manager w3)) = Some evs
    /\ threads w3 = (detach <$> threads w) ++ [PbStart].
Proof.
  intros Hm Hcr Hne He1 He3 Hfew.
  cbn [run step mbind option_bind hooked_digit Nat.leb andb].
  rewrite (menu_save e1 w evs Hm Hcr Hne He1).
  set (name := "recording_" +:+ strftime_now e1).
  set (w1 := set_status _ (with_disk _ w)).
  destruct (menu_list e2 w1 name
              (Doc (to_json (PyDict [("timestamp", PyStr (isoformat_now e1));
                                     ("notes", recording_of evs)]))))
    as (-> & Hin & Hlen); [done | apply lookup_insert_eq |].
  change (RM.stem_of_json name) with name in Hin.
  apply list_elem_of_lookup in Hin as [k Hk].
  assert (k < 9) as Hk9.
  { apply lookup_lt_Some in Hk. rewrite Hlen in Hk.
    assert (size (disk w1) <= S (size (disk w))); last lia.
    unfold w1. cbn [disk set_status with_disk with_ui].
    destruct (disk w !! name) as [f|] eqn:Hold.
    - rewrite map_size_insert_Some; [lia | by eexists].
    - rewrite map_size_insert_None; [lia | done]. }
  eexists _, k, _. split; first reflexivity. split; first done. split; first exact Hk.
  split; first exact Hk9.
  destruct (Nat.leb_spec k 8) as [_|]; last lia.
  split; first reflexivity.
  rewrite (selection_picks e3 k name); [|done|exact Hk].
  unfold RM.load_recording. cbn [disk set_status set_mode with_ui with_selection with_disk w1].
  rewrite lookup_insert_eq, He3.
  change (of_json (to_json (PyDict [("timestamp", PyStr (isoformat_now e1));
                                    ("notes", recording_of evs)])))
    with (PyDict [("timestamp", PyStr (isoformat_now e1));
                  ("notes", of_json (to_json (recording_of evs)))]).
  cbn [dict_get String.eqb Ascii.eqb Bool.eqb].
  unfold playback_recording, rebound_buffer.
  cbn [recording_manager current_recording set_status set_mode with_ui with_selection
       with_disk with_recording_manager with_threads threads].
  pose proof (events_of_reloaded evs) as Hev.
  rewrite of_json_to_json_recording in Hev |- *.
  destruct evs as [|ev evs]; first done.
  cbn [fmap list_fmap py_truthy negb] in Hev |- *.
  rewrite bool_decide_eq_false_2 by done. cbn [negb].
  split; first done. split; last done. exact Hev.
Qed.

Lemma saved_take_can_be_chosen_witness :
  exists w2 k w3,
    run [(at_time 150, NumberKey 4); (at_time 160, NumberKey 5)]
      (with_recording_manager
         {| current_recording := recording_of two_notes;
            recording_start_time := Some 100%Z; is_recording := false |} fresh) = Some w2
    /\ selection_mode_recordings w2 !! k = Some "recording_20240101_120000"
    /\ step (at_time 170) (NumberKey (S k)) w2 = Some w3
    /\ events_of (current_recording (recording_manager w3)) = Some two_notes.
Proof.
  destruct (saved_take_can_be_chosen
              (with_recording_manager
                 {| current_recording := recording_of two_notes;
                    recording_start_time := Some 100%Z; is_recording := false |} fresh)
              (at_time 150) (at_time 160) (at_time 170) two_notes)
    as (w2 & k & w3 & Hrun & _ & Hk & _ & Hstep & _ & Hev & _);
    [reflexivity | reflexivity | discriminate | reflexivity | reflexivity
    | vm_compute; lia |].
  exists w2, k, w3. split; first exact Hrun. split; first exact Hk.
  split; [exact Hstep | exact Hev].
Defined.

(** ** The last played note *)

(** X18. [update_last_note] changes nothing but [last_played_note], and
    only for a note name of the catalog, for which it shows the display name
    and the name; for any other value (a name that is not in the catalog, or
    something that is no string, as a hand-written file may hold) it
    leaves the UI as it is.  Calling it twice for the same note changes
    nothing more. *)
Theorem update_last_note_outcome (note : pyval) (u : MusicUI) :
  (UI.update_last_note note u = u
   \/ exists n display_note,
       note = PyStr n
       /\ (n, display_note) ∈ UI.key_to_note.*2
       /\ UI.update_last_note note u
          = {| current_mode := current_mode u;
               last_played_note := display_note +:+ " (" +:+ n +:+ ")";
               status_message := status_message u;
               available_recordings := available_recordings u |})
  /\ (forall n, note = PyStr n -> n ∉ UI.key_to_note.*2.*1 -> UI.update_last_note note u = u)
  /\ UI.update_last_note note (UI.update_last_note note u) = UI.update_last_note note u.
Proof.
  assert (forall n (values : list (string * string)),
            match UI.display_of n values with
            | Some display_note => (n, display_note) ∈ values
            | None => n ∉ values.*1
            end) as Hdisplay.
  { intros n values. induction values as [|[n' d'] values IH]; cbn.
    - apply not_elem_of_nil.
    - destruct (String.eqb_spec n' n) as [->|Hne]; first by left.
      destruct (UI.display_of n values); first by right.
      apply not_elem_of_cons. split; [congruence | done]. }
  destruct note as [| | |n| | |]; try (split; [by left | by split]).
  unfold UI.update_last_note. specialize (Hdisplay n (UI.key_to_note.*2)).
  destruct (UI.display_of n (UI.key_to_note.*2)) as [display_note|] eqn:Hd.
  - split; first (right; by exists n, display_note).
    split; last done. intros n' [= <-] Hout. destruct Hout.
    apply list_elem_of_fmap. by exists (n, display_note).
  - split; first by left. by split.
Qed.

(** ** Playbacks on top of each other *)

(** X19. Nothing keeps a second playback from starting while the first
    still runs: in the menu of a state the program can reach, with a buffer
    that is not empty, the keys '3', escape, '3' start two playback threads
    while the buffer stays what it was, so that both play it, and the first
    is left as it was started. *)
Theorem playbacks_can_overlap (w : MusicInstrument) (e1 e2 e3 : env) :
  reachable w ->
  current_mode (ui w) = M_menu ->
  py_truthy (current_recording (recording_manager w)) = true ->
  exists w',
    run [(e1, NumberKey 3); (e2, EscapeKey); (e3, NumberKey 3)] w = Some w'
    /\ current_mode (ui w') = M_playback
    /\ recording_manager w' = recording_manager w
    /\ threads w' = threads w ++ [PbStart; PbStart].
Proof.
  intros Hreach Hm Htruthy.
  destruct (reachable_session_inv w Hreach) as (Hmode & _ & _).
  assert (is_recording (recording_manager w) = false) as Hoff.
  { destruct (is_recording (recording_manager w)); last done.
    specialize (proj1 Hmode eq_refl). by rewrite Hm. }
  cbn [run step mbind option_bind hooked_digit Nat.leb andb].
  unfold _on_number_key at 2. rewrite Hm. unfold _handle_menu_selection at 1.
  rewrite Htruthy. unfold playback_recording at 1. cbn. rewrite Htruthy. cbn.
  unfold _on_escape. cbn. rewrite Hoff. cbn.
  unfold _on_number_key, _handle_menu_selection, playback_recording. cbn.
  rewrite Htruthy. cbn.
  eexists. split; first reflexivity. split; first done. split; first done.
  by rewrite <- app_assoc.
Qed.

Lemma playbacks_can_overlap_witness :
  exists w',
    run [(at_time 500, NumberKey 3); (at_time 510, EscapeKey); (at_time 520, NumberKey 3)]
      (with_selection [] (set_status "Returned to main menu" (set_mode M_menu playing)))
    = Some w'
    /\ length (threads w') = 3.
Proof.
  destruct (playbacks_can_overlap
              (with_selection [] (set_status "Returned to main menu" (set_mode M_menu playing)))
              (at_time 500) (at_time 510) (at_time 520))
    as (w' & Hrun & _ & _ & Hthreads).
  - apply (reachable_step playing (at_time 30) EscapeKey); [|discriminate|reflexivity].
    apply (reachable_step selecting (at_time 20) (NumberKey 1));
      [apply reachable_selecting | discriminate | reflexivity].
  - reflexivity.
  - by vm_compute.
  - exists w'. split; first exact Hrun. rewrite Hthreads. by vm_compute.
Defined.
